(** * Workout planner (src/app.js): a shallow embedding and its properties

    The class [WorkoutPlanner] keeps three fields ([workouts], [schedule],
    [progress]), a working session ([currentWorkoutDay],
    [currentWorkoutData]), reads and writes a few elements of the page (the
    three exercise inputs, the set rows of the workout modal) and one item
    of [localStorage].  Each method is embedded as a function on an explicit
    [planner] record.  Of the render methods, which only write markup into
    elements nothing else reads back, the embedding keeps where they
    throw: [renderWorkouts] and [openModal] throw when the markup of an
    exercise name hides the button they look up. *)

From Stdlib Require Import String Ascii.
From Stdlib Require Import List Bool Arith ZArith QArith Lia Permutation.
From Stdlib Require Import Sorted.
Import ListNotations.
Open Scope nat_scope.

Set Implicit Arguments.
Set Warnings "-register-all".

(* ================================================================== *)
(** * Runtime primitives used by the class *)
(* ================================================================== *)

Module Js.

(** A JavaScript string: its sequence of UTF-16 code units. *)
Definition str := list N.

(** Code units of an ASCII literal. *)
Fixpoint u (s : string) : str :=
  match s with
  | EmptyString => []
  | String c s' => N_of_ascii c :: u s'
  end.

Fixpoint str_eqb (a b : str) : bool :=
  match a, b with
  | [], [] => true
  | x :: a', y :: b' => N.eqb x y && str_eqb a' b'
  | _, _ => false
  end.

(** [Array.prototype.includes] on an array of strings. *)
Definition includes (l : list str) (x : str) : bool :=
  existsb (str_eqb x) l.

(** WhiteSpace and LineTerminator code points of ECMAScript, the ones
    [String.prototype.trim] strips: TAB, LF, VT, FF, CR, SP, NBSP, U+1680,
    U+2000..U+200A, U+2028, U+2029, U+202F, U+205F, U+3000, U+FEFF. *)
Definition isWhiteSpace (c : N) : bool :=
  ((9 <=? c) && (c <=? 13) || (c =? 32) || (c =? 160) || (c =? 5760)
   || (8192 <=? c) && (c <=? 8202) || (c =? 8232) || (c =? 8233)
   || (c =? 8239) || (c =? 8287) || (c =? 12288) || (c =? 65279))%N.

Fixpoint trimStart (s : str) : str :=
  match s with
  | c :: s' => if isWhiteSpace c then trimStart s' else s
  | [] => []
  end.

Definition trimEnd (s : str) : str := rev (trimStart (rev s)).

Definition trim (s : str) : str := trimEnd (trimStart s).

(** A string is truthy when it is not empty. *)
Definition truthy_str (s : str) : bool :=
  match s with [] => false | _ => true end.

(** [arr.splice(index, 1)] for an integer [index]: a negative index counts
    from the end, the start is clamped to [0 .. length], and at most one
    element is deleted.  The array that is left is returned. *)
Definition spliceStart (index len : Z) : Z :=
  if (index <? 0)%Z then Z.max (len + index) 0 else Z.min index len.

Definition splice1 {A} (index : Z) (l : list A) : list A :=
  let len := Z.of_nat (length l) in
  let start := spliceStart index len in
  let deleteCount := Z.min (Z.max 1 0) (len - start) in
  firstn (Z.to_nat start) l ++ skipn (Z.to_nat (start + deleteCount)) l.

(** [l\[i\] = x] for an index inside the array. *)
Fixpoint assign {A} (i : nat) (x : A) (l : list A) : list A :=
  match l, i with
  | [], _ => []
  | _ :: l', O => x :: l'
  | y :: l', S i' => y :: assign i' x l'
  end.

(** The destructuring swap [\[l\[i\], l\[j\]\] = \[l\[j\], l\[i\]\]]: both
    reads happen first, then [l\[i\]] and [l\[j\]] are written in that order.
    Both indices are inside the array wherever the class swaps. *)
Definition swap {A} (i j : nat) (l : list A) : list A :=
  match nth_error l i, nth_error l j with
  | Some a, Some b => assign j a (assign i b l)
  | _, _ => l
  end.

(** A number read by [parseFloat] or [parseInt]: [None] is NaN.  [x || 0]
    replaces NaN and zero by [0]. *)
Definition orZero (x : option Q) : Q :=
  match x with
  | None => 0%Q
  | Some q => if Qeq_bool q 0 then 0%Q else q
  end.

(** [x > 0] on numbers. *)
Definition gtZero (q : Q) : bool := negb (Qle_bool q 0).

(** JSON values, as [JSON.parse] returns them. An object keeps its
    members in order. *)
Inductive json : Type :=
| JNull
| JBool (b : bool)
| JNumber (q : Q)
| JString (s : str)
| JArray (items : list json)
| JObject (members : list (str * json)).

(** [v || d] keeps [v] when it is truthy. *)
Definition truthy (v : json) : bool :=
  match v with
  | JNull => false
  | JBool b => b
  | JNumber q => negb (Qeq_bool q 0)
  | JString s => truthy_str s
  | JArray _ | JObject _ => true
  end.

(** Own property lookup on a parsed object: the last member of that name
    wins. *)
Fixpoint member (k : str) (ms : list (str * json)) : option json :=
  match ms with
  | [] => None
  | (k', v) :: ms' =>
      match member k ms' with
      | Some w => Some w
      | None => if str_eqb k k' then Some v else None
      end
  end.

(** [data.k] for a parsed value [data]: reading a property of [null]
    throws a TypeError ([None]); on every other value that is not an
    object with that member the result is [undefined] ([Some None]). *)
Definition getProp (data : json) (k : str) : option (option json) :=
  match data with
  | JNull => None
  | JObject ms => Some (member k ms)
  | _ => Some None
  end.

(** [Array.prototype.map] with a function that may reject an element. *)
Fixpoint traverse {A B} (f : A -> option B) (l : list A) : option (list B) :=
  match l with
  | [] => Some []
  | x :: l' =>
      match f x, traverse f l' with
      | Some y, Some ys => Some (y :: ys)
      | _, _ => None
      end
  end.

End Js.

Import Js.

(* ================================================================== *)
(** * Data model *)
(* ================================================================== *)

(** The keys of [this.workouts] and of [this.schedule]. *)
Inductive workoutType := Push | Pull | Legs.
Inductive weekday := Monday | Tuesday | Wednesday | Thursday | Friday | Saturday.

(** An object with the keys [push], [pull], [legs]. *)
Record byType (A : Type) := { push : A; pull : A; legs : A }.

(** An object with the keys [monday] .. [saturday]. *)
Record byDay (A : Type) :=
  { monday : A; tuesday : A; wednesday : A;
    thursday : A; friday : A; saturday : A }.

(** [o\[type\]] and [o\[type\] = v]. *)
Definition atType {A} (o : byType A) (t : workoutType) : A :=
  match t with Push => push o | Pull => pull o | Legs => legs o end.

Definition setType {A} (t : workoutType) (v : A) (o : byType A) : byType A :=
  match t with
  | Push => {| push := v; pull := pull o; legs := legs o |}
  | Pull => {| push := push o; pull := v; legs := legs o |}
  | Legs => {| push := push o; pull := pull o; legs := v |}
  end.

(** [o\[day\]] and [o\[day\] = v]. *)
Definition atDay {A} (o : byDay A) (d : weekday) : A :=
  match d with
  | Monday => monday o | Tuesday => tuesday o | Wednesday => wednesday o
  | Thursday => thursday o | Friday => friday o | Saturday => saturday o
  end.

Definition setDay {A} (d : weekday) (v : A) (o : byDay A) : byDay A :=
  {| monday := match d with Monday => v | _ => monday o end;
     tuesday := match d with Tuesday => v | _ => tuesday o end;
     wednesday := match d with Wednesday => v | _ => wednesday o end;
     thursday := match d with Thursday => v | _ => thursday o end;
     friday := match d with Friday => v | _ => friday o end;
     saturday := match d with Saturday => v | _ => saturday o end |}.

(** [{ weight, reps }], [{ name, sets }] and [{ day, date, exercises }]. *)
Record loggedSet := { weight : Q; reps : Q }.
Record exerciseLog := { name : str; sets : list loggedSet }.
Record workoutRecord :=
  { day : weekday; date : str; exercises : list exerciseLog }.

(** One row of a [#sets-i] container of the modal: what [parseFloat] reads
    from its weight input and [parseInt] from its reps input ([None] is
    NaN, as for an empty or non-numeric field). *)
Record setDiv := { weightInput : option Q; repsInput : option Q }.

(** The item [workoutPlannerData] of [localStorage]: the empty text, a
    text [JSON.parse] rejects with a SyntaxError, or the text of a JSON
    value ([JSON.parse] of [JSON.stringify v] is [v]). *)
Inductive item :=
| EmptyText
| BadText (raw : str)
| JsonText (v : json).

(** The object and what it reads from the page and the storage. *)
Record planner := {
  workouts : byType (list str);
  schedule : byDay (list str);
  progress : list workoutRecord;
  currentWorkoutDay : option weekday;
  currentWorkoutData : option (list exerciseLog);
  (* the page *)
  exerciseInput : byType str;
  modalShown : bool;
  modalSets : list (list setDiv);
  (* localStorage.getItem('workoutPlannerData') *)
  localStorage : option item
}.

Definition withWorkouts (w : byType (list str)) (p : planner) : planner :=
  {| workouts := w; schedule := schedule p; progress := progress p;
     currentWorkoutDay := currentWorkoutDay p;
     currentWorkoutData := currentWorkoutData p;
     exerciseInput := exerciseInput p; modalShown := modalShown p;
     modalSets := modalSets p; localStorage := localStorage p |}.

Definition withSchedule (s : byDay (list str)) (p : planner) : planner :=
  {| workouts := workouts p; schedule := s; progress := progress p;
     currentWorkoutDay := currentWorkoutDay p;
     currentWorkoutData := currentWorkoutData p;
     exerciseInput := exerciseInput p; modalShown := modalShown p;
     modalSets := modalSets p; localStorage := localStorage p |}.

Definition withProgress (g : list workoutRecord) (p : planner) : planner :=
  {| workouts := workouts p; schedule := schedule p; progress := g;
     currentWorkoutDay := currentWorkoutDay p;
     currentWorkoutData := currentWorkoutData p;
     exerciseInput := exerciseInput p; modalShown := modalShown p;
     modalSets := modalSets p; localStorage := localStorage p |}.

Definition withSession (d : option weekday) (w : option (list exerciseLog))
    (p : planner) : planner :=
  {| workouts := workouts p; schedule := schedule p; progress := progress p;
     currentWorkoutDay := d; currentWorkoutData := w;
     exerciseInput := exerciseInput p; modalShown := modalShown p;
     modalSets := modalSets p; localStorage := localStorage p |}.

Definition withInput (i : byType str) (p : planner) : planner :=
  {| workouts := workouts p; schedule := schedule p; progress := progress p;
     currentWorkoutDay := currentWorkoutDay p;
     currentWorkoutData := currentWorkoutData p;
     exerciseInput := i; modalShown := modalShown p;
     modalSets := modalSets p; localStorage := localStorage p |}.

Definition withModal (shown : bool) (rows : list (list setDiv))
    (p : planner) : planner :=
  {| workouts := workouts p; schedule := schedule p; progress := progress p;
     currentWorkoutDay := currentWorkoutDay p;
     currentWorkoutData := currentWorkoutData p;
     exerciseInput := exerciseInput p; modalShown := shown;
     modalSets := rows; localStorage := localStorage p |}.

Definition withStorage (i : option item) (p : planner) : planner :=
  {| workouts := workouts p; schedule := schedule p; progress := progress p;
     currentWorkoutDay := currentWorkoutDay p;
     currentWorkoutData := currentWorkoutData p;
     exerciseInput := exerciseInput p; modalShown := modalShown p;
     modalSets := modalSets p; localStorage := i |}.

(** The field initialisers of the constructor, on a page as served (empty
    inputs, hidden modal without rows) and a storage holding [ls]. *)
Definition emptyWorkouts : byType (list str) :=
  {| push := []; pull := []; legs := [] |}.

Definition emptySchedule : byDay (list str) :=
  {| monday := []; tuesday := []; wednesday := [];
     thursday := []; friday := []; saturday := [] |}.

Definition fields (ls : option item) : planner :=
  {| workouts := emptyWorkouts; schedule := emptySchedule; progress := [];
     currentWorkoutDay := None; currentWorkoutData := None;
     exerciseInput := {| push := []; pull := []; legs := [] |};
     modalShown := false; modalSets := []; localStorage := ls |}.

(* ================================================================== *)
(** * saveData and loadData *)
(* ================================================================== *)

Definition dayName (d : weekday) : str :=
  match d with
  | Monday => u "monday" | Tuesday => u "tuesday"
  | Wednesday => u "wednesday" | Thursday => u "thursday"
  | Friday => u "friday" | Saturday => u "saturday"
  end.

(** The JSON value of each structure, member by member as the object
    literals of the class lay them out. *)
Definition jsonOfNames (l : list str) : json := JArray (map JString l).

Definition jsonOfWorkouts (w : byType (list str)) : json :=
  JObject [(u "push", jsonOfNames (push w)); (u "pull", jsonOfNames (pull w));
           (u "legs", jsonOfNames (legs w))].

Definition jsonOfSchedule (s : byDay (list str)) : json :=
  JObject (map (fun d => (dayName d, jsonOfNames (atDay s d)))
               [Monday; Tuesday; Wednesday; Thursday; Friday; Saturday]).

Definition jsonOfSet (x : loggedSet) : json :=
  JObject [(u "weight", JNumber (weight x)); (u "reps", JNumber (reps x))].

Definition jsonOfLog (e : exerciseLog) : json :=
  JObject [(u "name", JString (name e));
           (u "sets", JArray (map jsonOfSet (sets e)))].

Definition jsonOfRecord (r : workoutRecord) : json :=
  JObject [(u "day", JString (dayName (day r))); (u "date", JString (date r));
           (u "exercises", JArray (map jsonOfLog (exercises r)))].

Definition jsonOfProgress (g : list workoutRecord) : json :=
  JArray (map jsonOfRecord g).

(** Reading a parsed value back at the shape the methods use it.  A value
    of any other shape is rejected: the class would store it as it is, and
    it lies outside this typed model. *)
Definition namesOfJson (v : json) : option (list str) :=
  match v with
  | JArray l =>
      traverse (fun x => match x with JString s => Some s | _ => None end) l
  | _ => None
  end.

Definition workoutsOfJson (v : json) : option (byType (list str)) :=
  match v with
  | JObject [(k1, a); (k2, b); (k3, c)] =>
      if str_eqb k1 (u "push") && str_eqb k2 (u "pull")
         && str_eqb k3 (u "legs")
      then match namesOfJson a, namesOfJson b, namesOfJson c with
           | Some a', Some b', Some c' =>
               Some {| push := a'; pull := b'; legs := c' |}
           | _, _, _ => None
           end
      else None
  | _ => None
  end.

Definition scheduleOfJson (v : json) : option (byDay (list str)) :=
  match v with
  | JObject [(k1, a); (k2, b); (k3, c); (k4, d); (k5, e); (k6, f)] =>
      if str_eqb k1 (u "monday") && str_eqb k2 (u "tuesday")
         && str_eqb k3 (u "wednesday") && str_eqb k4 (u "thursday")
         && str_eqb k5 (u "friday") && str_eqb k6 (u "saturday")
      then match namesOfJson a, namesOfJson b, namesOfJson c,
                 namesOfJson d, namesOfJson e, namesOfJson f with
           | Some a', Some b', Some c', Some d', Some e', Some f' =>
               Some {| monday := a'; tuesday := b'; wednesday := c';
                       thursday := d'; friday := e'; saturday := f' |}
           | _, _, _, _, _, _ => None
           end
      else None
  | _ => None
  end.

Definition dayOfName (s : str) : option weekday :=
  find (fun d => str_eqb s (dayName d))
       [Monday; Tuesday; Wednesday; Thursday; Friday; Saturday].

Definition setOfJson (v : json) : option loggedSet :=
  match v with
  | JObject [(k1, JNumber w); (k2, JNumber r)] =>
      if str_eqb k1 (u "weight") && str_eqb k2 (u "reps")
      then Some {| weight := w; reps := r |} else None
  | _ => None
  end.

Definition logOfJson (v : json) : option exerciseLog :=
  match v with
  | JObject [(k1, JString n); (k2, JArray l)] =>
      if str_eqb k1 (u "name") && str_eqb k2 (u "sets")
      then match traverse setOfJson l with
           | Some l' => Some {| name := n; sets := l' |}
           | None => None
           end
      else None
  | _ => None
  end.

Definition recordOfJson (v : json) : option workoutRecord :=
  match v with
  | JObject [(k1, JString d); (k2, JString t); (k3, JArray l)] =>
      if str_eqb k1 (u "day") && str_eqb k2 (u "date")
         && str_eqb k3 (u "exercises")
      then match dayOfName d, traverse logOfJson l with
           | Some d', Some l' =>
               Some {| day := d'; date := t; exercises := l' |}
           | _, _ => None
           end
      else None
  | _ => None
  end.

Definition progressOfJson (v : json) : option (list workoutRecord) :=
  match v with
  | JArray l => traverse recordOfJson l
  | _ => None
  end.

(** [saveData]: the three fields, stringified, replace the item. *)
Definition dataOf (p : planner) : json :=
  JObject [(u "workouts", jsonOfWorkouts (workouts p));
           (u "schedule", jsonOfSchedule (schedule p));
           (u "progress", jsonOfProgress (progress p))].

Definition saveData (p : planner) : planner :=
  withStorage (Some (JsonText (dataOf p))) p.

(** The catalog [loadData] seeds when nothing is saved. *)
Definition defaultWorkouts : byType (list str) :=
  {| push := [u "Bench Press"; u "Overhead Press";
              u "Incline Dumbbell Press"; u "Lateral Raises";
              u "Tricep Dips"];
     pull := [u "Pull-ups"; u "Barbell Rows"; u "Cable Rows";
              u "Face Pulls"; u "Barbell Curls"];
     legs := [u "Squats"; u "Romanian Deadlifts"; u "Leg Press";
              u "Leg Curls"; u "Calf Raises"] |}.

(** [v || dflt], read at the expected shape. *)
Definition orDefault {A} (read : json -> option A) (dflt : A)
    (v : option json) : option A :=
  match v with
  | Some x => if truthy x then read x else Some dflt
  | None => Some dflt
  end.

(** What [loadData] leaves: the object, and whether the [catch] block ran
    ([console.error]); or a document that parses but stores a value of
    another shape than the model has. *)
Inductive loaded :=
| Loaded (p : planner) (consoleError : bool)
| Untyped.

Definition loadData (p : planner) : loaded :=
  match localStorage p with
  | Some (JsonText data) =>
      match getProp data (u "workouts") with
      | None => Loaded p true
      | Some w =>
          match orDefault workoutsOfJson emptyWorkouts w with
          | None => Untyped
          | Some w' =>
              let p1 := withWorkouts w' p in
              match getProp data (u "schedule") with
              | None => Loaded p1 true
              | Some s =>
                  match orDefault scheduleOfJson emptySchedule s with
                  | None => Untyped
                  | Some s' =>
                      let p2 := withSchedule s' p1 in
                      match getProp data (u "progress") with
                      | None => Loaded p2 true
                      | Some g =>
                          match orDefault progressOfJson [] g with
                          | None => Untyped
                          | Some g' => Loaded (withProgress g' p2) false
                          end
                      end
                  end
              end
          end
      end
  | Some (BadText _) => Loaded p true
  | Some EmptyText | None =>
      Loaded (saveData (withWorkouts defaultWorkouts p)) false
  end.

(** [new WorkoutPlanner()], up to rendering: the field initialisers, then
    [loadData].  [init] goes on to wire the handlers and then to render;
    a render that throws there ends the constructor with the object as
    loaded and the handlers wired. *)
Definition construct (ls : option item) : loaded := loadData (fields ls).

(* ================================================================== *)
(** * Day types and the schedule *)
(* ================================================================== *)

Definition getDayType (d : weekday) : workoutType :=
  match d with
  | Monday => Push | Tuesday => Pull | Wednesday => Legs
  | Thursday => Push | Friday => Pull | Saturday => Legs
  end.

Definition isScheduleValid (d : weekday) (p : planner) : bool :=
  let type := getDayType d in
  let scheduleExercises := atDay (schedule p) d in
  let availableExercises := atType (workouts p) type in
  forallb (fun ex => includes availableExercises ex) scheduleExercises
  && (length scheduleExercises =? length availableExercises).

(** The body of the loop of [updateSchedule], for one day. *)
Definition syncDay (d : weekday) (p : planner) : planner :=
  let type := getDayType d in
  if (length (atDay (schedule p) d) =? 0) || negb (isScheduleValid d p)
  then withSchedule (setDay d (atType (workouts p) type) (schedule p)) p
  else p.

Definition updateSchedule (p : planner) : planner :=
  fold_left (fun q d => syncDay d q)
            [Monday; Tuesday; Wednesday; Thursday; Friday; Saturday] p.

(** [Math.floor(Math.random() * n)].  The product and the floor are IEEE
    double operations, which are not modelled: the random source is taken
    at the integer it leaves, [random k n] for the [k]-th call of
    [Math.random()] with the factor [n].  For a value of [Math.random()]
    in [\[0, 1)] that integer is below [n]. *)
Definition randomIndex (random : nat -> nat -> nat) (k i : nat) : nat :=
  random k (i + 1).

Definition belowFactor (random : nat -> nat -> nat) : Prop :=
  forall k n, 0 < n -> random k n < n.

(** The shuffle loop from index [i] down to 1, with the [k]-th call of
    [Math.random()] next. *)
Fixpoint shuffleFrom {A} (i : nat) (random : nat -> nat -> nat) (k : nat)
    (exercises : list A) : list A :=
  match i with
  | O => exercises
  | S i' =>
      let j := randomIndex random k i in
      shuffleFrom i' random (S k) (swap i j exercises)
  end.

Definition shuffle {A} (random : nat -> nat -> nat) (exercises : list A)
    : list A :=
  shuffleFrom (length exercises - 1) random 0 exercises.

Definition randomizeDay (d : weekday) (random : nat -> nat -> nat)
    (p : planner) : planner :=
  let type := getDayType d in
  let exercises := shuffle random (atType (workouts p) type) in
  saveData (withSchedule (setDay d exercises (schedule p)) p).

(* ================================================================== *)
(** * The page and methods that throw *)
(* ================================================================== *)

(** [renderWorkouts] and [openModal] write an exercise name into
    [innerHTML] and then look up the button that follows it in the
    markup, [li.querySelector('.delete-btn')] and
    [exerciseDiv.querySelector('.add-set-btn')].  The HTML parser is not
    part of the class: a [page] tells for each name whether its markup
    leaves no such button to find (a name such as an open comment
    swallows what follows it).  Then [querySelector] returns [null] and
    [addEventListener] on it throws a TypeError.  [renderDay] and
    [renderProgress] write names into [innerHTML] too, but look nothing
    up and do not throw. *)
Record page := {
  hidesDeleteButton : str -> bool;
  hidesAddSetButton : str -> bool
}.

(** How a method ends: it returns, or it throws; either way with the
    object as the method left it. *)
Inductive outcome :=
| Returned (p : planner)
| Thrown (p : planner).

Definition after (o : outcome) : planner :=
  match o with
  | Returned p => p
  | Thrown p => p
  end.

Definition threw (o : outcome) : bool :=
  match o with
  | Returned _ => false
  | Thrown _ => true
  end.

(** One item of the list [renderWorkouts] builds for a category: the
    empty-state item, or an exercise with the index its delete button
    hands to [removeExercise]. *)
Inductive listItem :=
| EmptyState
| ExerciseItem (exercise : str) (index : Z).

(** The [forEach] of [renderWorkouts] over one list, from position
    [index] on; [None] when it throws at a name that hides its button. *)
Fixpoint exerciseItems (dom : page) (index : nat) (l : list str)
    : option (list listItem) :=
  match l with
  | [] => Some []
  | exercise :: l' =>
      if hidesDeleteButton dom exercise
      then None
      else
        match exerciseItems dom (S index) l' with
        | Some items => Some (ExerciseItem exercise (Z.of_nat index) :: items)
        | None => None
        end
  end.

Definition renderList (dom : page) (l : list str) : option (list listItem) :=
  if length l =? 0 then Some [EmptyState] else exerciseItems dom 0 l.

(** [renderWorkouts]: the three lists, push first; [None] when it
    throws. *)
Definition renderWorkouts (dom : page) (p : planner)
    : option (byType (list listItem)) :=
  match renderList dom (atType (workouts p) Push) with
  | None => None
  | Some a =>
      match renderList dom (atType (workouts p) Pull) with
      | None => None
      | Some b =>
          match renderList dom (atType (workouts p) Legs) with
          | None => None
          | Some c => Some {| push := a; pull := b; legs := c |}
          end
      end
  end.

(* ================================================================== *)
(** * The catalog *)
(* ================================================================== *)

(** [addExercise]: when [renderWorkouts] throws, the name is in the
    catalog and saved, and [updateSchedule] has not run. *)
Definition addExercise (dom : page) (type : workoutType) (p : planner)
    : outcome :=
  let name := trim (atType (exerciseInput p) type) in
  if truthy_str name && negb (includes (atType (workouts p) type) name)
  then
    let p1 := withWorkouts
                (setType type (atType (workouts p) type ++ [name])
                         (workouts p)) p in
    let p2 := withInput (setType type [] (exerciseInput p1)) p1 in
    let p3 := saveData p2 in
    match renderWorkouts dom p3 with
    | None => Thrown p3
    | Some _ => Returned (updateSchedule p3)
    end
  else Returned p.

Definition removeExercise (dom : page) (type : workoutType) (index : Z)
    (p : planner) : outcome :=
  let p1 := withWorkouts
              (setType type (splice1 index (atType (workouts p) type))
                       (workouts p)) p in
  let p2 := saveData p1 in
  match renderWorkouts dom p2 with
  | None => Thrown p2
  | Some _ => Returned (updateSchedule p2)
  end.

(** The user typing [s] into the input of a category; [add(type, s)] is
    that followed by [addExercise]. *)
Definition typeExercise (type : workoutType) (s : str) (p : planner)
    : planner :=
  withInput (setType type s (exerciseInput p)) p.

Definition add (dom : page) (type : workoutType) (s : str) (p : planner)
    : outcome :=
  addExercise dom type (typeExercise type s p).

(* ================================================================== *)
(** * The workout session *)
(* ================================================================== *)

(** The texts of the three alerts. *)
Definition noExercisesAlert : string :=
  "No exercises defined for this day. Please add exercises first.".
Definition completedAlert : string := "Workout completed! Great job! 💪".
Definition logOneSetAlert : string :=
  "Please log at least one set to complete the workout.".

(** The [forEach] of [openModal]: the empty [#sets-i] containers it has
    appended, and whether it threw, at the first name that hides its
    add-set button (the container of that name is not appended). *)
Fixpoint modalExercises (dom : page) (exs : list str)
    : list (list setDiv) * bool :=
  match exs with
  | [] => ([], false)
  | exercise :: exs' =>
      if hidesAddSetButton dom exercise
      then ([], true)
      else
        let (containers, thrown) := modalExercises dom exs' in
        ([] :: containers, thrown)
  end.

(** [openModal] empties [#modal-exercises], appends the containers and
    then shows the modal; when it throws the modal stays as it was,
    shown or hidden. *)
Definition openModal (dom : page) (exs : list str) (p : planner) : outcome :=
  let (containers, thrown) := modalExercises dom exs in
  if thrown
  then Thrown (withModal (modalShown p) containers p)
  else Returned (withModal true containers p).

(** [startWorkout]: how it ends, and the alert it raised, if any.  The
    session is bound before [openModal] runs. *)
Definition startWorkout (dom : page) (d : weekday) (p : planner)
    : outcome * option string :=
  let exs := atDay (schedule p) d in
  if length exs =? 0
  then (Returned p, Some noExercisesAlert)
  else
    let p1 := withSession (Some d)
                (Some (map (fun ex => {| name := ex; sets := [] |}) exs)) p in
    (openModal dom exs p1, None).

(** The click handler [openModal] binds to the add-set button of
    container [exerciseIndex]: [addSet] appends a row with two empty
    inputs. *)
Definition addSet (exerciseIndex : nat) (p : planner) : planner :=
  match nth_error (modalSets p) exerciseIndex with
  | Some rows =>
      withModal (modalShown p)
        (assign exerciseIndex
           (rows ++ [{| weightInput := None; repsInput := None |}])
           (modalSets p)) p
  | None => p
  end.

(** The user filling in row [setIndex] of container [exerciseIndex]. *)
Definition fillSet (exerciseIndex setIndex : nat) (r : setDiv) (p : planner)
    : planner :=
  match nth_error (modalSets p) exerciseIndex with
  | Some rows =>
      withModal (modalShown p)
        (assign exerciseIndex (assign setIndex r rows) (modalSets p)) p
  | None => p
  end.

(** The inner loop of [completeWorkout] over the rows of one container. *)
Fixpoint readSets (rows : list setDiv) : list loggedSet :=
  match rows with
  | [] => []
  | r :: rows' =>
      let weight := orZero (weightInput r) in
      let reps := orZero (repsInput r) in
      if gtZero reps
      then {| weight := weight; reps := reps |} :: readSets rows'
      else readSets rows'
  end.

(** The outer loop, from exercise index [i] on.  [None]: there is no
    [#sets-i] element, [getElementById] returns [null] and reading its
    [children] throws. *)
Fixpoint readExercises (exs : list str) (i : nat)
    (containers : list (list setDiv)) : option (list exerciseLog) :=
  match exs with
  | [] => Some []
  | exerciseName :: exs' =>
      match nth_error containers i with
      | None => None
      | Some rows =>
          let sets := readSets rows in
          match readExercises exs' (S i) containers with
          | None => None
          | Some rest =>
              Some (if 0 <? length sets
                    then {| name := exerciseName; sets := sets |} :: rest
                    else rest)
          end
      end
  end.

Definition closeModal (p : planner) : planner :=
  withSession None None (withModal false (modalSets p) p).

(** [completeWorkout] at the time [now] ([new Date().toISOString()]):
    [None] when it throws (no session day, or a missing container), which
    happens before anything is written; otherwise the object and the
    alert. *)
Definition completeWorkout (now : str) (p : planner)
    : option (planner * string) :=
  match currentWorkoutDay p with
  | None => None
  | Some d =>
      match readExercises (atDay (schedule p) d) 0 (modalSets p) with
      | None => None
      | Some logs =>
          if 0 <? length logs
          then
            let workoutData := {| day := d; date := now; exercises := logs |} in
            let p1 := withProgress (progress p ++ [workoutData]) p in
            Some (closeModal (saveData p1), completedAlert)
          else
            Some (p, logOneSetAlert)
      end
  end.

(** What the user can do on the page, and how the handler of each action
    ends.  A click on a delete button carries the index the button was
    rendered with; after a render that threw the buttons on the page can
    be those of an earlier catalog, so any index is allowed. *)
Inductive action :=
| TypeExercise (type : workoutType) (s : str)
| ClickAdd (type : workoutType)
| ClickDelete (type : workoutType) (index : Z)
| ClickRandomize (d : weekday) (random : nat -> nat -> nat)
| ClickStart (d : weekday)
| ClickAddSet (exerciseIndex : nat)
| FillSet (exerciseIndex setIndex : nat) (r : setDiv)
| ClickComplete (now : str)
| ClickClose.

Definition run (dom : page) (a : action) (p : planner) : outcome :=
  match a with
  | TypeExercise t s => Returned (typeExercise t s p)
  | ClickAdd t => addExercise dom t p
  | ClickDelete t i => removeExercise dom t i p
  | ClickRandomize d random => Returned (randomizeDay d random p)
  | ClickStart d => fst (startWorkout dom d p)
  | ClickAddSet i => Returned (addSet i p)
  | FillSet i k r => Returned (fillSet i k r p)
  | ClickComplete now =>
      match completeWorkout now p with
      | Some (p', _) => Returned p'
      | None => Thrown p
      end
  | ClickClose => Returned (closeModal p)
  end.

(** The object after the handler, whether it returned or threw. *)
Definition handle (dom : page) (a : action) (p : planner) : planner :=
  after (run dom a p).

(** A session is active on day [d]: [startWorkout d] has bound it and the
    modal holds a set container for each exercise of the day. *)
Definition sessionActive (d : weekday) (p : planner) : Prop :=
  currentWorkoutDay p = Some d /\
  length (atDay (schedule p) d) <= length (modalSets p).

(** A log is well formed: it holds a set, and each set has reps above
    zero. *)
Definition logged (e : exerciseLog) : Prop :=
  sets e <> [] /\ Forall (fun x => (0 < reps x)%Q) (sets e).

(** No row of the modal has reps above zero. *)
Definition noValidSet (p : planner) : Prop :=
  Forall (fun rows =>
            Forall (fun r => gtZero (orZero (repsInput r)) = false) rows)
         (modalSets p).

(* ================================================================== *)
(** * Counting the outcomes of the shuffle *)
(* ================================================================== *)

(** The shuffle loop driven by the indices it draws: [js] lists the [j]
    of each round, from round [i] down to round 1. *)
Fixpoint shuffleBy {A} (i : nat) (js : list nat) (exercises : list A)
    : list A :=
  match i, js with
  | S i', j :: js' => shuffleBy i' js' (swap i j exercises)
  | _, _ => exercises
  end.

(** The indices [shuffleFrom] draws from the random source. *)
Fixpoint indicesFrom (i : nat) (random : nat -> nat -> nat) (k : nat)
    : list nat :=
  match i with
  | O => []
  | S i' => randomIndex random k i :: indicesFrom i' random (S k)
  end.

(** Every sequence of draws the loop can make from round [i] on: round
    [t] draws one of [0 .. t].  An unbiased source makes each of them
    equally likely. *)
Fixpoint draws (i : nat) : list (list nat) :=
  match i with
  | O => [[]]
  | S i' => flat_map (fun j => map (cons j) (draws i')) (seq 0 (S i))
  end.

(** A random source that draws the indices [js], one per call. *)
Definition sourceOf (js : list nat) : nat -> nat -> nat :=
  fun k n => Nat.min (nth k js 0) (n - 1).

Definition weekday_eq_dec : forall a b : weekday, {a = b} + {a <> b}.
Proof. decide equality. Defined.

Definition str_eq_dec : forall a b : str, {a = b} + {a <> b} :=
  list_eq_dec N.eq_dec.

Definition names_eq_dec : forall a b : list str, {a = b} + {a <> b} :=
  list_eq_dec str_eq_dec.

(** In how many of the draw sequences from round [i] on the loop turns
    [exercises] into [order]. *)
Definition waysFrom (i : nat) (exercises order : list str) : nat :=
  count_occ names_eq_dec
            (map (fun js => shuffleBy i js exercises) (draws i)) order.

Definition ways (exercises order : list str) : nat :=
  waysFrom (length exercises - 1) exercises order.

(** What [randomizeDay] leaves in the day for each of the draw
    sequences, and in how many of them it leaves [order]. *)
Definition randomizedDays (d : weekday) (p : planner) : list (list str) :=
  map (fun js => atDay (schedule (randomizeDay d (sourceOf js) p)) d)
      (draws (length (atType (workouts p) (getDayType d)) - 1)).

Definition chances (d : weekday) (p : planner) (order : list str) : nat :=
  count_occ names_eq_dec (randomizedDays d p) order.

(** The product, over the distinct names of a list, of the factorial of
    the number of times each occurs. *)
Fixpoint repeats (l : list str) : nat :=
  match l with
  | [] => 1
  | x :: l' => (1 + count_occ str_eq_dec l' x) * repeats l'
  end.

(* ================================================================== *)
(** * States the page can reach *)
(* ================================================================== *)

(** The object after the first visit: nothing saved, so the seed catalog. *)
Definition firstVisit : planner :=
  saveData (withWorkouts defaultWorkouts (fields None)).

(** Loading the page again: a new object over the storage as it is. *)
Definition reload (p : planner) : planner :=
  match construct (localStorage p) with
  | Loaded q _ => q
  | Untyped => fields (localStorage p)
  end.

(** The states of the object on a page: from the first visit, by what the
    user does, handlers that throw included, and by loading the page
    again. *)
Inductive reachable (dom : page) : planner -> Prop :=
| reach_first : reachable dom firstVisit
| reach_handle a p : reachable dom p -> reachable dom (handle dom a p)
| reach_reload p : reachable dom p -> reachable dom (reload p).

(** No list of the catalog and no day of the schedule names an exercise
    twice. *)
Definition duplicateFree (p : planner) : Prop :=
  (forall t, NoDup (atType (workouts p) t)) /\
  (forall d, NoDup (atDay (schedule p) d)).

(** The stored document was saved from an object of that kind. *)
Definition savedDuplicateFree (p : planner) : Prop :=
  exists q, duplicateFree q /\ localStorage p = localStorage (saveData q).

(* ================================================================== *)
(** * Sample states *)
(* ================================================================== *)

Definition A_ : str := u "A".
Definition B_ : str := u "B".
Definition C_ : str := u "C".

(** A page for samples: the names [<!--] and [<textarea>] swallow the
    markup that follows them, the buttons included, and no other name
    does. *)
Definition swallows (s : str) : bool :=
  str_eqb s (u "<!--") || str_eqb s (u "<textarea>").

Definition samplePage : page :=
  {| hidesDeleteButton := swallows; hidesAddSetButton := swallows |}.

(** A random source for samples: the middle index; and the one that
    draws [j = i] in each round, which leaves the order as it is. *)
Definition middle : nat -> nat -> nat := fun _ n => n / 2.
Definition keepOrder : nat -> nat -> nat := fun _ n => n - 1.

(** A catalog [push = \[A, B\]] with Monday scheduled as [\[A, A\]], as a
    saved document can hold it. *)
Definition mondayTwice : planner :=
  withSchedule (setDay Monday [A_; A_] emptySchedule)
    (withWorkouts (setType Push [A_; B_] emptyWorkouts) (fields None)).

(** A catalog [push = \[A, B, C\]] with Monday scheduled as [\[B, A, C\]]. *)
Definition mondayShuffled : planner :=
  withSchedule (setDay Monday [B_; A_; C_] emptySchedule)
    (withWorkouts (setType Push [A_; B_; C_] emptyWorkouts) (fields None)).

(** A catalog [push = \[A, B\]] with Monday scheduled as [\[A, B\]]. *)
Definition mondayTwo : planner :=
  withSchedule (setDay Monday [A_; B_] emptySchedule)
    (withWorkouts (setType Push [A_; B_] emptyWorkouts) (fields None)).

(** A session on Monday over [\[A, B\]] with one row typed in for [A]
    (100 x 10) and one row left empty for [B]. *)
Definition mondaySession : planner :=
  fillSet 0 0 {| weightInput := Some 100%Q; repsInput := Some 10%Q |}
    (addSet 1 (addSet 0
       (after (fst (startWorkout samplePage Monday mondayTwo))))).


(** A catalog [push = \[A, B, C\]] with Monday still scheduled as
    [\[A, B\]]. *)
Definition mondayStale : planner :=
  withSchedule (setDay Monday [A_; B_] emptySchedule)
    (withWorkouts (setType Push [A_; B_; C_] emptyWorkouts) (fields None)).

(** A catalog whose push list names [A] twice, as a saved document can
    hold it. *)
Definition pushTwice : planner :=
  withWorkouts (setType Push [A_; A_] emptyWorkouts) (fields None).

(* ================================================================== *)
(** * Rendering the progress log *)
(* ================================================================== *)

(** The comparator of [renderProgress],
    [new Date(b.date) - new Date(a.date)]: [timeOf] is the time value
    [new Date] reads from a date text, [None] for an invalid date, and
    then the difference is NaN ([None]). *)
Definition byDate (timeOf : str -> option Z) (a b : workoutRecord)
    : option Z :=
  match timeOf (date b), timeOf (date a) with
  | Some tb, Some ta => Some (tb - ta)%Z
  | _, _ => None
  end.

(** [Array.prototype.sort] with a comparator: the sort is stable, and an
    element goes behind another only where the comparator is above zero
    (NaN counts as zero).  Computed by insertion, last element first. *)
Definition aboveZero (c : option Z) : bool :=
  match c with
  | Some z => (0 <? z)%Z
  | None => false
  end.

Fixpoint insertSorted {A} (compare : A -> A -> option Z) (x : A)
    (l : list A) : list A :=
  match l with
  | [] => [x]
  | y :: l' =>
      if aboveZero (compare x y)
      then y :: insertSorted compare x l'
      else x :: l
  end.

Definition sortWith {A} (compare : A -> A -> option Z) (l : list A)
    : list A :=
  fold_right (insertSorted compare) [] l.

(** The copy of the progress log [renderProgress] displays. *)
Definition sortedProgress (timeOf : str -> option Z) (p : planner)
    : list workoutRecord :=
  sortWith (byDate timeOf) (progress p).

(* ================================================================== *)
(** * Further predicates on states *)
(* ================================================================== *)

(** States of one page visit in which no handler throws: from the first
    visit, by what the user does, without loading the page again. *)
Inductive quietVisit (dom : page) : planner -> Prop :=
| quiet_first : quietVisit dom firstVisit
| quiet_handle a p :
    quietVisit dom p -> threw (run dom a p) = false ->
    quietVisit dom (handle dom a p).

(** A record of the progress log holds a log, and each log is well
    formed. *)
Definition wellLogged (r : workoutRecord) : Prop :=
  exercises r <> [] /\ Forall logged (exercises r).

(** A name is not empty and has no white space at either end. *)
Definition trimmed (s : str) : Prop := s <> [] /\ trim s = s.

(** The stored document holds the catalog and the progress log of the
    object. *)
Definition storedCatalogAndProgress (p : planner) : Prop :=
  exists q,
    localStorage p = localStorage (saveData q) /\
    workouts q = workouts p /\ progress q = progress p.

(** A record has a date [new Date] can read; a record is not older than
    another; a record is dated at the time [t]. *)
Definition dated (timeOf : str -> option Z) (r : workoutRecord) : Prop :=
  timeOf (date r) <> None.

Definition notOlder (timeOf : str -> option Z) (a b : workoutRecord) : Prop :=
  exists ta tb,
    timeOf (date a) = Some ta /\ timeOf (date b) = Some tb /\ (tb <= ta)%Z.

Definition datedAt (timeOf : str -> option Z) (t : Z) (r : workoutRecord)
    : bool :=
  match timeOf (date r) with
  | Some z => (z =? t)%Z
  | None => false
  end.

(** One row whose inputs read as the weight [w] and the reps [r], and the
    date of one workout. *)
Definition rowOf (w r : Q) : setDiv :=
  {| weightInput := Some w; repsInput := Some r |}.

Definition someDay : str := u "2024-01-15T10:00:00.000Z".

(** A time value for samples: the length of the date text. *)
Definition lengthTime (s : str) : option Z := Some (Z.of_nat (length s)).

(** The first visit after typing [Dips] into the push input and clicking
    its add button. *)
Definition dipsAdded : planner :=
  handle samplePage (ClickAdd Push)
    (handle samplePage (TypeExercise Push (u "Dips")) firstVisit).

(** After that, a session started on Monday, over the six push
    exercises, and then [Flyes] typed and added to the push list while
    the session is bound: Monday is re-synced to seven exercises and the
    modal holds six containers. *)
Definition sessionOutgrown : planner :=
  handle samplePage (ClickAdd Push)
    (handle samplePage (TypeExercise Push (u "Flyes"))
       (handle samplePage (ClickStart Monday) dipsAdded)).

(** The first visit after typing [<textarea>] into the push input and
    clicking its add button, which throws once the name is saved, and
    then a click on the randomize button of Monday that leaves the
    catalog order: Monday lists the five seed exercises and then
    [<textarea>]. *)
Definition textareaScheduled : planner :=
  handle samplePage (ClickRandomize Monday keepOrder)
    (handle samplePage (ClickAdd Push)
       (handle samplePage (TypeExercise Push (u "<textarea>")) firstVisit)).

(** A progress log of three workouts, the second one the latest by
    [lengthTime]. *)
Definition threeWorkouts : planner :=
  withProgress
    [{| day := Monday; date := u "ab"; exercises := [] |};
     {| day := Tuesday; date := u "abcd"; exercises := [] |};
     {| day := Friday; date := u "abc"; exercises := [] |}]
    (fields None).

(** After that, a Monday workout with one set of 100 x 10 for its first
    exercise, completed. *)
Definition workoutLogged : planner :=
  handle samplePage (ClickComplete someDay)
    (handle samplePage (FillSet 0 0 (rowOf 100 10))
       (handle samplePage (ClickAddSet 0)
          (handle samplePage (ClickStart Monday) dipsAdded))).

Unset Implicit Arguments.

(* ================================================================== *)
(** * Facts about the runtime primitives *)
(* ================================================================== *)

Lemma str_eqb_eq (a b : str) : str_eqb a b = true <-> a = b.
Proof.
  revert b; induction a as [|x a IH]; intros [|y b]; simpl;
    try (split; [discriminate | discriminate]); try tauto.
  rewrite andb_true_iff, N.eqb_eq, IH. split.
  - intros [-> ->]; reflexivity.
  - intros H; injection H; auto.
Qed.

Lemma str_eqb_refl (a : str) : str_eqb a a = true.
Proof. apply str_eqb_eq; reflexivity. Qed.

Lemma includes_In (l : list str) (x : str) : includes l x = true <-> In x l.
Proof.
  unfold includes. rewrite existsb_exists. split.
  - intros [y [Hy He]]. apply str_eqb_eq in He. subst; assumption.
  - intros H. exists x. split; [assumption | apply str_eqb_refl].
Qed.

Lemma includes_not_In (l : list str) (x : str) :
  includes l x = false <-> ~ In x l.
Proof.
  rewrite <- includes_In. destruct (includes l x); split; congruence.
Qed.

Lemma length_assign {A} (i : nat) (x : A) (l : list A) :
  length (assign i x l) = length l.
Proof.
  revert i; induction l as [|y l IH]; intros [|i]; simpl; auto.
Qed.

Lemma nth_error_assign_eq {A} (i : nat) (x : A) (l : list A) :
  i < length l -> nth_error (assign i x l) i = Some x.
Proof.
  revert i; induction l as [|y l IH]; intros [|i]; simpl; intros H;
    try lia; auto.
  apply IH; lia.
Qed.

Lemma nth_error_assign_ne {A} (i k : nat) (x : A) (l : list A) :
  i <> k -> nth_error (assign i x l) k = nth_error l k.
Proof.
  revert i k; induction l as [|y l IH]; intros [|i] [|k] H; simpl; auto.
  congruence.
Qed.

Lemma assign_same {A} (i : nat) (x : A) (l : list A) :
  nth_error l i = Some x -> assign i x l = l.
Proof.
  revert i; induction l as [|y l IH]; intros [|i]; simpl; intros H; auto.
  - congruence.
  - f_equal; auto.
Qed.

Lemma assign_app_l {A} (i : nat) (x : A) (l r : list A) :
  i < length l -> assign i x (l ++ r) = assign i x l ++ r.
Proof.
  revert i; induction l as [|y l IH]; intros [|i]; simpl; intros H;
    try lia; auto.
  f_equal; apply IH; lia.
Qed.

(* ================================================================== *)
(** * The schedule reconciler *)
(* ================================================================== *)

Lemma atDay_setDay_eq {A} (d : weekday) (v : A) (o : byDay A) :
  atDay (setDay d v o) d = v.
Proof. destruct d; reflexivity. Qed.

Lemma atDay_setDay_ne {A} (d d' : weekday) (v : A) (o : byDay A) :
  d <> d' -> atDay (setDay d v o) d' = atDay o d'.
Proof. destruct d, d'; simpl; congruence. Qed.

Lemma setDay_same {A} (d : weekday) (o : byDay A) :
  setDay d (atDay o d) o = o.
Proof. destruct o, d; reflexivity. Qed.

Lemma atType_setType_eq {A} (t : workoutType) (v : A) (o : byType A) :
  atType (setType t v o) t = v.
Proof. destruct t; reflexivity. Qed.

Lemma atType_setType_ne {A} (t t' : workoutType) (v : A) (o : byType A) :
  t <> t' -> atType (setType t v o) t' = atType o t'.
Proof. destruct t, t'; simpl; congruence. Qed.

(** The check of [isScheduleValid], spelled out. *)
Lemma isScheduleValid_true (d : weekday) (p : planner) :
  isScheduleValid d p = true <->
  incl (atDay (schedule p) d) (atType (workouts p) (getDayType d)) /\
  length (atDay (schedule p) d)
  = length (atType (workouts p) (getDayType d)).
Proof.
  unfold isScheduleValid.
  rewrite andb_true_iff, forallb_forall, Nat.eqb_eq.
  unfold incl. setoid_rewrite includes_In. tauto.
Qed.

(** On a day that lists no exercise twice the check decides whether the
    day is a permutation of its catalog list. *)
Lemma isScheduleValid_Permutation (d : weekday) (p : planner) :
  NoDup (atDay (schedule p) d) ->
  isScheduleValid d p = true <->
  Permutation (atDay (schedule p) d) (atType (workouts p) (getDayType d)).
Proof.
  intros Hnd. rewrite isScheduleValid_true. split.
  - intros [Hincl Hlen].
    apply NoDup_Permutation_bis; [assumption | lia | assumption].
  - intros HP. split.
    + intros x Hx. eapply Permutation_in; eassumption.
    + apply Permutation_length; assumption.
Qed.

Lemma syncDay_cases (d : weekday) (p : planner) :
  (atDay (schedule p) d = [] \/ isScheduleValid d p = false) /\
  syncDay d p
  = withSchedule
      (setDay d (atType (workouts p) (getDayType d)) (schedule p)) p
  \/
  (atDay (schedule p) d <> [] /\ isScheduleValid d p = true) /\
  syncDay d p = p.
Proof.
  unfold syncDay.
  destruct (atDay (schedule p) d) as [|x l] eqn:Hs; simpl.
  - left. split; [left|]; reflexivity.
  - destruct (isScheduleValid d p) eqn:Hv; simpl.
    + right. split; [split; [discriminate | reflexivity] | reflexivity].
    + left. split; [right|]; reflexivity.
Qed.

Lemma syncDay_frame (d : weekday) (p : planner) :
  workouts (syncDay d p) = workouts p /\
  progress (syncDay d p) = progress p /\
  currentWorkoutDay (syncDay d p) = currentWorkoutDay p /\
  currentWorkoutData (syncDay d p) = currentWorkoutData p /\
  exerciseInput (syncDay d p) = exerciseInput p /\
  modalShown (syncDay d p) = modalShown p /\
  modalSets (syncDay d p) = modalSets p /\
  localStorage (syncDay d p) = localStorage p /\
  forall d', d <> d' ->
    atDay (schedule (syncDay d p)) d' = atDay (schedule p) d'.
Proof.
  destruct (syncDay_cases d p) as [[_ ->] | [_ ->]]; simpl;
    repeat split; auto.
  intros d' Hd. apply atDay_setDay_ne; assumption.
Qed.

(** C1 fails as stated: with [push = \[A, B\]] and Monday scheduled as
    [\[A, A\]], the check of [isScheduleValid] passes (every scheduled name
    is in the catalog and the lengths agree), [sync] leaves the day as it
    is, and the day is not a permutation of the catalog. *)
Lemma syncDay_keeps_repeated_name :
  atDay (schedule (syncDay Monday mondayTwice)) Monday = [A_; A_] /\
  atType (workouts mondayTwice) (getDayType Monday) = [A_; B_] /\
  ~ Permutation (atDay (schedule (syncDay Monday mondayTwice)) Monday)
                (atType (workouts mondayTwice) (getDayType Monday)).
Proof.
  split; [reflexivity | split; [reflexivity |]].
  intros HP.
  assert (Hin : In B_ [A_; A_]).
  { eapply Permutation_in; [apply Permutation_sym; exact HP |].
    simpl; auto. }
  simpl in Hin. destruct Hin as [H | [H | []]]; discriminate H.
Qed.

(** C1, amended: on a day whose schedule lists no exercise twice, after
    [sync] the day is a permutation of the catalog list of its category;
    [sync] writes a copy of the catalog list, in catalog order, when the
    day is empty or is not a permutation of the catalog list, and changes
    nothing otherwise.  Nothing but that day is written. *)
Theorem syncDay_reconciles (d : weekday) (p : planner) :
  NoDup (atDay (schedule p) d) ->
  let catalog := atType (workouts p) (getDayType d) in
  Permutation (atDay (schedule (syncDay d p)) d) catalog /\
  (atDay (schedule p) d = [] \/ ~ Permutation (atDay (schedule p) d) catalog ->
   atDay (schedule (syncDay d p)) d = catalog) /\
  (atDay (schedule p) d <> [] ->
   Permutation (atDay (schedule p) d) catalog -> syncDay d p = p) /\
  workouts (syncDay d p) = workouts p /\
  (forall d', d <> d' ->
     atDay (schedule (syncDay d p)) d' = atDay (schedule p) d').
Proof.
  intros Hnd catalog.
  pose proof (isScheduleValid_Permutation d p Hnd) as Hv.
  fold catalog in Hv.
  destruct (syncDay_frame d p) as (Hw & _ & _ & _ & _ & _ & _ & _ & Hd).
  destruct (syncDay_cases d p) as [[Hc He] | [[Hne Hval] He]].
  - rewrite He at 1 2. simpl. rewrite atDay_setDay_eq.
    repeat split; auto.
    intros Hne HP. destruct Hc as [Hc | Hc]; [contradiction |].
    apply Hv in HP. congruence.
  - rewrite He at 1 2. apply Hv in Hval.
    repeat split; auto.
    intros [Hc | Hc]; contradiction.
Qed.

Lemma syncDay_reconciles_shuffled :
  NoDup (atDay (schedule mondayShuffled) Monday) /\
  Permutation (atDay (schedule (syncDay Monday mondayShuffled)) Monday)
              (atType (workouts mondayShuffled) (getDayType Monday)).
Proof.
  assert (Hnd : NoDup (atDay (schedule mondayShuffled) Monday)).
  { simpl. repeat constructor; simpl; intuition discriminate. }
  split; [exact Hnd |].
  exact (proj1 (syncDay_reconciles Monday mondayShuffled Hnd)).
Defined.

(** Scenario B of the specification: a stale Monday is written anew from
    the catalog. *)
Lemma syncDay_scenario :
  atDay (schedule (syncDay Monday mondayStale)) Monday = [A_; B_; C_].
Proof. reflexivity. Qed.

(* ================================================================== *)
(** * Persistence *)
(* ================================================================== *)

Lemma traverse_map {A B} (f : B -> option A) (g : A -> B) (l : list A) :
  (forall x, f (g x) = Some x) -> traverse f (map g l) = Some l.
Proof.
  intros H. induction l as [|x l IH]; simpl.
  - reflexivity.
  - rewrite H, IH. reflexivity.
Qed.

Lemma namesOfJson_jsonOfNames (l : list str) :
  namesOfJson (jsonOfNames l) = Some l.
Proof.
  unfold namesOfJson, jsonOfNames. apply traverse_map. reflexivity.
Qed.

Lemma workoutsOfJson_jsonOfWorkouts (w : byType (list str)) :
  workoutsOfJson (jsonOfWorkouts w) = Some w.
Proof.
  destruct w as [a b c]. unfold jsonOfWorkouts, workoutsOfJson.
  change (str_eqb (u "push") (u "push") && str_eqb (u "pull") (u "pull")
          && str_eqb (u "legs") (u "legs")) with true.
  cbn iota. cbn [push pull legs].
  rewrite !namesOfJson_jsonOfNames. reflexivity.
Qed.

Lemma scheduleOfJson_jsonOfSchedule (s : byDay (list str)) :
  scheduleOfJson (jsonOfSchedule s) = Some s.
Proof.
  destruct s as [a b c d e f]. unfold jsonOfSchedule, scheduleOfJson.
  cbn [map atDay monday tuesday wednesday thursday friday saturday].
  change (str_eqb (dayName Monday) (u "monday")
          && str_eqb (dayName Tuesday) (u "tuesday")
          && str_eqb (dayName Wednesday) (u "wednesday")
          && str_eqb (dayName Thursday) (u "thursday")
          && str_eqb (dayName Friday) (u "friday")
          && str_eqb (dayName Saturday) (u "saturday")) with true.
  cbn iota.
  rewrite !namesOfJson_jsonOfNames. reflexivity.
Qed.

Lemma dayOfName_dayName (d : weekday) : dayOfName (dayName d) = Some d.
Proof. destruct d; reflexivity. Qed.

Lemma setOfJson_jsonOfSet (x : loggedSet) : setOfJson (jsonOfSet x) = Some x.
Proof. destruct x; reflexivity. Qed.

Lemma logOfJson_jsonOfLog (e : exerciseLog) : logOfJson (jsonOfLog e) = Some e.
Proof.
  destruct e as [n l]. unfold jsonOfLog, logOfJson. cbn [name sets].
  change (str_eqb (u "name") (u "name") && str_eqb (u "sets") (u "sets"))
    with true.
  cbn iota. rewrite (traverse_map _ _ _ setOfJson_jsonOfSet). reflexivity.
Qed.

Lemma recordOfJson_jsonOfRecord (r : workoutRecord) :
  recordOfJson (jsonOfRecord r) = Some r.
Proof.
  destruct r as [d t l]. unfold jsonOfRecord, recordOfJson.
  cbn [day date exercises].
  change (str_eqb (u "day") (u "day") && str_eqb (u "date") (u "date")
          && str_eqb (u "exercises") (u "exercises")) with true.
  cbn iota. rewrite dayOfName_dayName.
  rewrite (traverse_map _ _ _ logOfJson_jsonOfLog). reflexivity.
Qed.

Lemma progressOfJson_jsonOfProgress (g : list workoutRecord) :
  progressOfJson (jsonOfProgress g) = Some g.
Proof.
  unfold progressOfJson, jsonOfProgress.
  apply traverse_map, recordOfJson_jsonOfRecord.
Qed.

(** The three members of the document [saveData] writes. *)
Lemma getProp_document (a b c : json) :
  let doc := JObject [(u "workouts", a); (u "schedule", b);
                      (u "progress", c)] in
  getProp doc (u "workouts") = Some (Some a) /\
  getProp doc (u "schedule") = Some (Some b) /\
  getProp doc (u "progress") = Some (Some c).
Proof. repeat split. Qed.

(** Loading the document [saveData] wrote gives back the three fields. *)
Lemma loadData_saved (p q : planner) :
  localStorage q = localStorage (saveData p) ->
  loadData q
  = Loaded (withProgress (progress p)
              (withSchedule (schedule p) (withWorkouts (workouts p) q)))
           false.
Proof.
  intros Hq. unfold loadData. rewrite Hq. cbn [saveData withStorage localStorage].
  unfold dataOf.
  destruct (getProp_document (jsonOfWorkouts (workouts p))
              (jsonOfSchedule (schedule p)) (jsonOfProgress (progress p)))
    as (-> & -> & ->).
  unfold orDefault.
  change (truthy (jsonOfWorkouts (workouts p))) with true.
  change (truthy (jsonOfSchedule (schedule p))) with true.
  change (truthy (jsonOfProgress (progress p))) with true.
  cbn iota.
  rewrite workoutsOfJson_jsonOfWorkouts, scheduleOfJson_jsonOfSchedule,
    progressOfJson_jsonOfProgress.
  reflexivity.
Qed.

(** C9: whatever the catalog, the schedule and the progress log are,
    constructing the object on the storage [saveData] left loads the very
    same three structures, with no error. *)
Theorem load_after_save (p : planner) :
  exists q,
    construct (localStorage (saveData p)) = Loaded q false /\
    workouts q = workouts p /\
    schedule q = schedule p /\
    progress q = progress p.
Proof.
  eexists. split.
  - unfold construct. apply loadData_saved. reflexivity.
  - repeat split.
Qed.

(** Scenario A of the specification: with nothing stored, or an empty
    text, the object gets the seed catalog, keeps the empty schedule and
    progress log, and saves. *)
Lemma loadData_nothing_saved (ls : option item) :
  ls = None \/ ls = Some EmptyText ->
  construct ls
  = Loaded (saveData (withWorkouts defaultWorkouts (fields ls))) false.
Proof. intros [-> | ->]; reflexivity. Qed.

(** A document that parses but holds a number for [workouts] is stored as
    it is by the class; the typed model has no object for it. *)
Lemma loadData_other_shape :
  construct (Some (JsonText (JObject [(u "workouts", JNumber 5)]))) = Untyped.
Proof. reflexivity. Qed.

(** C2 fails as stated: on a stored text that does not parse, the [catch]
    block only logs, and the catalog stays as the constructor set it,
    empty in every category; the seed catalog is what the object gets
    when nothing is stored. *)
Lemma corrupt_document_keeps_empty_catalog :
  exists p q,
    construct (Some (BadText (u "{oops"))) = Loaded p true /\
    construct None = Loaded q false /\
    workouts p = emptyWorkouts /\
    workouts q = defaultWorkouts /\
    workouts p <> workouts q /\
    localStorage p = Some (BadText (u "{oops")).
Proof.
  eexists. eexists.
  split; [reflexivity | split; [reflexivity |]].
  repeat split. simpl. discriminate.
Qed.

(** C2, amended: on every stored text that [JSON.parse] rejects, and on
    the document [null], [loadData] logs the error and writes nothing:
    the object stays as the constructor initialised it, with an empty
    catalog, an empty schedule and an empty progress log, and the stored
    text stays in place. *)
Theorem loadData_corrupt_document (raw : str) (ls : option item) :
  ls = Some (BadText raw) \/ ls = Some (JsonText JNull) ->
  construct ls = Loaded (fields ls) true /\
  workouts (fields ls) = emptyWorkouts /\
  schedule (fields ls) = emptySchedule /\
  progress (fields ls) = [] /\
  localStorage (fields ls) = ls.
Proof.
  intros [-> | ->]; repeat split.
Qed.

Lemma loadData_corrupt_document_example :
  construct (Some (BadText (u "{oops")))
  = Loaded (fields (Some (BadText (u "{oops")))) true.
Proof.
  exact (proj1 (loadData_corrupt_document (u "{oops") _ (or_introl eq_refl))).
Defined.

(* ================================================================== *)
(** * The catalog *)
(* ================================================================== *)

Lemma setType_same {A} (t : workoutType) (o : byType A) :
  setType t (atType o t) o = o.
Proof. destruct o, t; reflexivity. Qed.

(** [updateSchedule] writes the schedule only. *)
Lemma updateSchedule_frame (p : planner) :
  workouts (updateSchedule p) = workouts p /\
  progress (updateSchedule p) = progress p /\
  currentWorkoutDay (updateSchedule p) = currentWorkoutDay p /\
  currentWorkoutData (updateSchedule p) = currentWorkoutData p /\
  exerciseInput (updateSchedule p) = exerciseInput p /\
  modalShown (updateSchedule p) = modalShown p /\
  modalSets (updateSchedule p) = modalSets p /\
  localStorage (updateSchedule p) = localStorage p.
Proof.
  unfold updateSchedule.
  generalize [Monday; Tuesday; Wednesday; Thursday; Friday; Saturday].
  intros days. revert p.
  induction days as [|d days IH]; intros p; simpl.
  - repeat split.
  - destruct (IH (syncDay d p)) as (H1 & H2 & H3 & H4 & H5 & H6 & H7 & H8).
    destruct (syncDay_frame d p) as (G1 & G2 & G3 & G4 & G5 & G6 & G7 & G8 & _).
    repeat split; congruence.
Qed.

Lemma trimStart_spec (s : str) :
  exists a, s = a ++ trimStart s /\ forallb isWhiteSpace a = true /\
            match trimStart s with
            | c :: _ => isWhiteSpace c = false
            | [] => True
            end.
Proof.
  induction s as [|c s (a & Ha & Hws & Hhd)]; simpl.
  - exists []. repeat split.
  - destruct (isWhiteSpace c) eqn:Hc.
    + exists (c :: a). simpl. rewrite Hc, Hws. repeat split; auto.
      f_equal; assumption.
    + exists []. repeat split; assumption.
Qed.

(** [trim s] is [s] without the white space at its two ends. *)
Lemma trim_spec (s : str) :
  exists a b,
    s = a ++ trim s ++ b /\
    forallb isWhiteSpace a = true /\ forallb isWhiteSpace b = true /\
    match trim s with
    | c :: _ => isWhiteSpace c = false /\
                exists m z, trim s = m ++ [z] /\ isWhiteSpace z = false
    | [] => True
    end.
Proof.
  destruct (trimStart_spec s) as (a & Ha & Hwa & Hhd).
  destruct (trimStart_spec (rev (trimStart s))) as (b & Hb & Hwb & Htl).
  unfold trim, trimEnd.
  set (m := trimStart (rev (trimStart s))) in *.
  assert (Hs : trimStart s = rev m ++ rev b).
  { rewrite <- rev_app_distr, <- Hb, rev_involutive. reflexivity. }
  exists a, (rev b). split; [rewrite <- Hs; exact Ha |].
  split; [exact Hwa |]. split.
  - rewrite forallb_forall in *. intros x Hx. apply Hwb, in_rev, Hx.
  - destruct m as [|z m']; simpl; [exact I |].
    destruct (rev m' ++ [z]) as [|c r] eqn:Hr.
    + destruct (rev m'); discriminate.
    + split.
      * rewrite Hs in Hhd. simpl in Hhd. rewrite Hr in Hhd. exact Hhd.
      * exists (rev m'), z. split; [symmetry; exact Hr | exact Htl].
Qed.

Lemma trim_sample : trim (u "  Bench Press ") = u "Bench Press".
Proof. reflexivity. Qed.

Lemma truthy_str_true (s : str) : truthy_str s = true <-> s <> [].
Proof. destruct s; simpl; split; congruence. Qed.

(** The two branches of [addExercise]. *)
Lemma addExercise_cases (dom : page) (t : workoutType) (p : planner) :
  let name := trim (atType (exerciseInput p) t) in
  (name = [] \/ In name (atType (workouts p) t)) /\
  addExercise dom t p = Returned p
  \/
  (name <> [] /\ ~ In name (atType (workouts p) t)) /\
  workouts (after (addExercise dom t p))
  = setType t (atType (workouts p) t ++ [name]) (workouts p).
Proof.
  intros name. unfold addExercise. fold name.
  destruct (truthy_str name) eqn:Hn; cbn [andb].
  - destruct (includes (atType (workouts p) t) name) eqn:Hi; cbn [negb].
    + left. split; [right; apply includes_In; assumption | reflexivity].
    + right. split.
      * split; [apply truthy_str_true; assumption
               | apply includes_not_In; assumption].
      * destruct (renderWorkouts dom _); cbn [after]; [| reflexivity].
        match goal with |- workouts (updateSchedule ?q) = _ =>
          rewrite (proj1 (updateSchedule_frame q)) end.
        reflexivity.
  - left. split; [left | reflexivity].
    destruct name; [reflexivity | discriminate].
Qed.

Lemma count_occ_snoc (l : list str) (x y : str) :
  count_occ str_eq_dec (l ++ [y]) x
  = count_occ str_eq_dec l x + (if str_eq_dec y x then 1 else 0).
Proof.
  rewrite count_occ_app. simpl. destruct (str_eq_dec y x); reflexivity.
Qed.

(** C5 fails as stated at the empty name and on a list that already
    names the exercise twice: adding the empty name twice leaves no
    occurrence of it, and adding [A] twice to [\[A, A\]] leaves two. *)
Lemma add_twice_not_one :
  count_occ str_eq_dec
    (atType (workouts (after (add samplePage Push []
                                (after (add samplePage Push [] firstVisit)))))
            Push) [] = 0 /\
  count_occ str_eq_dec
    (atType (workouts (after (add samplePage Push A_
                                (after (add samplePage Push A_ pushTwice)))))
            Push) A_ = 2.
Proof. split; vm_compute; reflexivity. Qed.

Lemma add_cases (dom : page) (t : workoutType) (s : str) (p : planner) :
  (trim s = [] \/ In (trim s) (atType (workouts p) t)) /\
  add dom t s p = Returned (typeExercise t s p)
  \/
  (trim s <> [] /\ ~ In (trim s) (atType (workouts p) t)) /\
  workouts (after (add dom t s p))
  = setType t (atType (workouts p) t ++ [trim s]) (workouts p).
Proof.
  pose proof (addExercise_cases dom t (typeExercise t s p)) as H.
  cbn zeta in H. unfold add.
  replace (atType (exerciseInput (typeExercise t s p)) t) with s in H
    by (unfold typeExercise; cbn [exerciseInput withInput];
        rewrite atType_setType_eq; reflexivity).
  exact H.
Qed.

(** C5, amended: [add] trims the name; with an empty trimmed name, or one
    the list of the category already holds, it returns with nothing but
    the input text changed; otherwise the trimmed name goes to the end of
    that list and the other lists stay, whether or not the rendering that
    follows throws.  When the trimmed name is not empty and the list does
    not hold it more than once, adding the name twice leaves exactly one
    occurrence of the trimmed name. *)
Theorem add_appends_once (dom : page) (t : workoutType) (s : str)
    (p : planner) :
  let name := trim s in
  let catalog := atType (workouts p) t in
  (name = [] \/ In name catalog ->
   add dom t s p = Returned (typeExercise t s p)) /\
  (name <> [] -> ~ In name catalog ->
   atType (workouts (after (add dom t s p))) t = catalog ++ [name] /\
   forall t', t <> t' ->
     atType (workouts (after (add dom t s p))) t' = atType (workouts p) t') /\
  (name <> [] -> count_occ str_eq_dec catalog name <= 1 ->
   count_occ str_eq_dec
     (atType (workouts (after (add dom t s (after (add dom t s p))))) t) name
   = 1).
Proof.
  intros name catalog. split; [| split].
  - intros Hno. destruct (add_cases dom t s p) as [[_ He] | [[Hne Hni] _]].
    + exact He.
    + fold name catalog in Hne, Hni. tauto.
  - intros Hne Hni.
    destruct (add_cases dom t s p) as [[Hno _] | [_ Hw]].
    + fold name catalog in Hno. tauto.
    + rewrite Hw. split.
      * apply atType_setType_eq.
      * intros t' Ht. apply atType_setType_ne; assumption.
  - intros Hne Hcnt.
    set (q := after (add dom t s p)).
    assert (H1 : In name (atType (workouts q) t) /\
                 count_occ str_eq_dec (atType (workouts q) t) name = 1).
    { unfold q.
      destruct (add_cases dom t s p) as [[Hno He] | [[_ Hni] Hw]].
      - rewrite He. cbn [after typeExercise workouts withInput].
        fold name catalog in Hno. destruct Hno as [Hno | Hin]; [tauto |].
        split; [exact Hin |].
        apply (count_occ_In str_eq_dec) in Hin. fold catalog. lia.
      - rewrite Hw, atType_setType_eq. fold name catalog in Hni |- *.
        split; [apply in_or_app; right; left; reflexivity |].
        rewrite count_occ_snoc.
        apply (count_occ_not_In str_eq_dec) in Hni. rewrite Hni.
        destruct (str_eq_dec name name); [reflexivity | congruence]. }
    destruct H1 as [Hin Hone].
    destruct (add_cases dom t s q) as [[_ He] | [[_ Hni] _]].
    + rewrite He. cbn [after typeExercise workouts withInput]. exact Hone.
    + contradiction.
Qed.

Lemma add_appends_once_example :
  trim (u " Dips ") <> [] /\
  count_occ str_eq_dec (atType (workouts firstVisit) Push) (trim (u " Dips "))
  <= 1 /\
  count_occ str_eq_dec
    (atType (workouts
               (after (add samplePage Push (u " Dips ")
                         (after (add samplePage Push (u " Dips ")
                                   firstVisit)))))
            Push)
    (trim (u " Dips ")) = 1.
Proof.
  assert (H1 : trim (u " Dips ") <> []) by discriminate.
  assert (H2 : count_occ str_eq_dec (atType (workouts firstVisit) Push)
                 (trim (u " Dips ")) <= 1) by (vm_compute; lia).
  split; [exact H1 | split; [exact H2 |]].
  exact (proj2 (proj2 (add_appends_once samplePage Push (u " Dips ")
                         firstVisit)) H1 H2).
Defined.

Lemma splice1_beyond {A} (index : Z) (l : list A) :
  (Z.of_nat (length l) <= index)%Z -> splice1 index l = l.
Proof.
  intros H. unfold splice1, spliceStart.
  destruct (index <? 0)%Z eqn:Hneg; [apply Z.ltb_lt in Hneg; lia |].
  rewrite Z.min_r by lia.
  replace (Z.min (Z.max 1 0) (Z.of_nat (length l) - Z.of_nat (length l)))
    with 0%Z by lia.
  rewrite Z.add_0_r, Nat2Z.id, firstn_all, skipn_all. apply app_nil_r.
Qed.

(** Inside the list, [splice] takes out the element at the index. *)
Lemma splice1_inside {A} (i : nat) (l : list A) :
  i < length l ->
  splice1 (Z.of_nat i) l = firstn i l ++ skipn (S i) l.
Proof.
  intros H. unfold splice1, spliceStart.
  destruct (Z.of_nat i <? 0)%Z eqn:Hneg; [apply Z.ltb_lt in Hneg; lia |].
  rewrite Z.min_l by lia.
  replace (Z.min (Z.max 1 0) (Z.of_nat (length l) - Z.of_nat i))
    with 1%Z by lia.
  rewrite Nat2Z.id. replace (Z.to_nat (Z.of_nat i + 1)) with (S i) by lia.
  reflexivity.
Qed.

(** C6 fails as stated below zero: [-1] is no position of a list of
    three, and [remove] with it takes out the last exercise. *)
Lemma remove_minus_one_removes_last :
  atType (workouts mondayShuffled) Push = [A_; B_; C_] /\
  ~ (0 <= -1 < Z.of_nat (length (atType (workouts mondayShuffled) Push)))%Z /\
  threw (removeExercise samplePage Push (-1) mondayShuffled) = false /\
  atType (workouts (after (removeExercise samplePage Push (-1) mondayShuffled)))
         Push = [A_; B_].
Proof.
  split; [reflexivity | split; [lia | split; vm_compute; reflexivity]].
Qed.

(** With an index at or past the end, [removeExercise] still saves,
    renders the catalog lists and, when that returns, re-syncs the
    schedule; the catalog stays as it is either way. *)
Lemma removeExercise_beyond (dom : page) (t : workoutType) (index : Z)
    (p : planner) :
  (Z.of_nat (length (atType (workouts p) t)) <= index)%Z ->
  removeExercise dom t index p
  = match renderWorkouts dom (saveData p) with
    | None => Thrown (saveData p)
    | Some _ => Returned (updateSchedule (saveData p))
    end.
Proof.
  intros H. unfold removeExercise.
  rewrite splice1_beyond by assumption. rewrite setType_same.
  replace (withWorkouts (workouts p) p) with p by (destruct p; reflexivity).
  reflexivity.
Qed.

(** [renderWorkouts] throws exactly when a name of the catalog hides its
    delete button. *)
Lemma exerciseItems_None (dom : page) (k : nat) (l : list str) :
  exerciseItems dom k l = None <-> existsb (hidesDeleteButton dom) l = true.
Proof.
  revert k. induction l as [|x l IH]; intros k; cbn [exerciseItems existsb].
  - split; discriminate.
  - destruct (hidesDeleteButton dom x); cbn [orb]; [split; reflexivity |].
    rewrite <- (IH (S k)).
    destruct (exerciseItems dom (S k) l); split; congruence.
Qed.

Lemma renderList_None (dom : page) (l : list str) :
  renderList dom l = None <-> existsb (hidesDeleteButton dom) l = true.
Proof.
  unfold renderList. destruct l as [|x l].
  - cbn [length Nat.eqb existsb]. split; discriminate.
  - cbn [length Nat.eqb]. apply exerciseItems_None.
Qed.

Lemma renderWorkouts_None (dom : page) (p : planner) :
  renderWorkouts dom p = None <->
  exists t x, In x (atType (workouts p) t) /\ hidesDeleteButton dom x = true.
Proof.
  unfold renderWorkouts. split.
  - intros H.
    destruct (renderList dom (atType (workouts p) Push)) eqn:H1;
      [| apply renderList_None, existsb_exists in H1;
         destruct H1 as (x & Hx & Hh); exists Push, x; auto].
    destruct (renderList dom (atType (workouts p) Pull)) eqn:H2;
      [| apply renderList_None, existsb_exists in H2;
         destruct H2 as (x & Hx & Hh); exists Pull, x; auto].
    destruct (renderList dom (atType (workouts p) Legs)) eqn:H3;
      [discriminate H |].
    apply renderList_None, existsb_exists in H3.
    destruct H3 as (x & Hx & Hh). exists Legs, x. auto.
  - intros (t & x & Hx & Hh).
    assert (Ht : renderList dom (atType (workouts p) t) = None).
    { apply renderList_None, existsb_exists. exists x. auto. }
    destruct t; rewrite ?Ht;
      repeat (match goal with
              | |- match ?r with _ => _ end = None =>
                  destruct r eqn:?; try reflexivity
              end); congruence.
Qed.

(** C6, amended: with an index at or past the end of the list of the
    category, [remove] leaves the whole catalog as it is.  It raises an
    error exactly when a name of the catalog hides its delete button, in
    the rendering of the catalog lists; then the saved document is
    written and the schedule is not re-synced.  Otherwise it returns,
    with the document written and the schedule re-synced. *)
Theorem remove_beyond_end (dom : page) (t : workoutType) (index : Z)
    (p : planner) :
  (Z.of_nat (length (atType (workouts p) t)) <= index)%Z ->
  workouts (after (removeExercise dom t index p)) = workouts p /\
  (threw (removeExercise dom t index p) = true <->
   exists t' x,
     In x (atType (workouts p) t') /\ hidesDeleteButton dom x = true) /\
  (threw (removeExercise dom t index p) = true ->
   removeExercise dom t index p = Thrown (saveData p)) /\
  (threw (removeExercise dom t index p) = false ->
   removeExercise dom t index p = Returned (updateSchedule (saveData p))).
Proof.
  intros H. rewrite (removeExercise_beyond dom t index p H).
  pose proof (renderWorkouts_None dom (saveData p)) as Hnone.
  change (workouts (saveData p)) with (workouts p) in Hnone.
  destruct (renderWorkouts dom (saveData p)) as [lists|] eqn:Hr;
    cbn [after threw].
  - split; [rewrite (proj1 (updateSchedule_frame _)); reflexivity |].
    split; [split; [discriminate |] |].
    + intros Hex. apply Hnone in Hex. discriminate Hex.
    + split; [discriminate | reflexivity].
  - split; [reflexivity |].
    split; [split; [intros _; apply Hnone; reflexivity | reflexivity] |].
    split; [reflexivity | discriminate].
Qed.

Lemma remove_beyond_end_example :
  (Z.of_nat (length (atType (workouts mondayShuffled) Push)) <= 99)%Z /\
  workouts (after (removeExercise samplePage Push 99 mondayShuffled))
  = workouts mondayShuffled /\
  removeExercise samplePage Push 99 mondayShuffled
  = Returned (updateSchedule (saveData mondayShuffled)).
Proof.
  assert (H : (Z.of_nat (length (atType (workouts mondayShuffled) Push))
               <= 99)%Z) by (vm_compute; discriminate).
  destruct (remove_beyond_end samplePage Push 99 mondayShuffled H)
    as (Hw & _ & _ & Hret).
  split; [exact H |]. split; [exact Hw |].
  apply Hret. vm_compute. reflexivity.
Defined.

(* ================================================================== *)
(** * The workout session *)
(* ================================================================== *)

(** [openModal] over names none of which hides its add-set button. *)
Lemma modalExercises_quiet (dom : page) (exs : list str) :
  existsb (hidesAddSetButton dom) exs = false ->
  modalExercises dom exs = (map (fun _ => []) exs, false).
Proof.
  induction exs as [|x exs IH]; cbn [existsb modalExercises map].
  - reflexivity.
  - intros H. apply orb_false_iff in H. destruct H as [Hx Hexs].
    rewrite Hx, (IH Hexs). reflexivity.
Qed.

(** [openModal] up to the first name that hides its add-set button. *)
Lemma modalExercises_throws (dom : page) (pre post : list str) (x : str) :
  existsb (hidesAddSetButton dom) pre = false ->
  hidesAddSetButton dom x = true ->
  modalExercises dom (pre ++ x :: post) = (map (fun _ => []) pre, true).
Proof.
  intros Hpre Hx.
  induction pre as [|y pre IH]; cbn [existsb app modalExercises map] in *.
  - rewrite Hx. reflexivity.
  - apply orb_false_iff in Hpre. destruct Hpre as [Hy Hpre].
    rewrite Hy, (IH Hpre). reflexivity.
Qed.

Lemma modalExercises_threw (dom : page) (exs : list str) :
  snd (modalExercises dom exs) = existsb (hidesAddSetButton dom) exs.
Proof.
  induction exs as [|x exs IH]; cbn [existsb modalExercises].
  - reflexivity.
  - destruct (hidesAddSetButton dom x); [reflexivity |].
    destruct (modalExercises dom exs) as [containers thrown].
    exact IH.
Qed.

(** [openModal] writes the modal only. *)
Lemma openModal_frame (dom : page) (exs : list str) (p : planner) :
  let p' := after (openModal dom exs p) in
  workouts p' = workouts p /\ schedule p' = schedule p /\
  progress p' = progress p /\
  currentWorkoutDay p' = currentWorkoutDay p /\
  currentWorkoutData p' = currentWorkoutData p /\
  exerciseInput p' = exerciseInput p /\
  localStorage p' = localStorage p.
Proof.
  unfold openModal.
  destruct (modalExercises dom exs) as [containers [|]]; cbn [after];
    repeat split.
Qed.

(** [startWorkout] on a day with exercises: the session is bound, then
    the modal is opened. *)
Lemma startWorkout_bound (dom : page) (d : weekday) (p : planner) :
  atDay (schedule p) d <> [] ->
  startWorkout dom d p
  = (openModal dom (atDay (schedule p) d)
       (withSession (Some d)
          (Some (map (fun ex => {| name := ex; sets := [] |})
                     (atDay (schedule p) d))) p),
     None).
Proof.
  intros H. unfold startWorkout.
  destruct (atDay (schedule p) d) as [|x l]; [congruence | reflexivity].
Qed.

(** C8: [startWorkout] alerts exactly when the day has no exercise; then
    it returns the object as it was, so no session is bound.  Otherwise
    it alerts nothing and binds a session to the day, with one entry
    with an empty set list per scheduled exercise, and leaves the
    catalog, the schedule, the progress log and the stored document as
    they were.  When no scheduled name hides its add-set button it then
    returns with the modal shown and one empty set container per
    exercise.  When a scheduled name does, it throws instead: the
    session stays bound, the modal is not shown by the call and holds
    the containers of the exercises before that name only. *)
Theorem startWorkout_empty_day (dom : page) (d : weekday) (p : planner) :
  let exs := atDay (schedule p) d in
  let p' := after (fst (startWorkout dom d p)) in
  (snd (startWorkout dom d p) = Some noExercisesAlert <-> exs = []) /\
  (snd (startWorkout dom d p) = None <-> exs <> []) /\
  (exs = [] -> fst (startWorkout dom d p) = Returned p) /\
  (exs <> [] ->
   currentWorkoutDay p' = Some d /\
   currentWorkoutData p'
   = Some (map (fun ex => {| name := ex; sets := [] |}) exs) /\
   workouts p' = workouts p /\ schedule p' = schedule p /\
   progress p' = progress p /\ localStorage p' = localStorage p) /\
  (threw (fst (startWorkout dom d p)) = true <->
   existsb (hidesAddSetButton dom) exs = true) /\
  (exs <> [] -> existsb (hidesAddSetButton dom) exs = false ->
   modalShown p' = true /\ modalSets p' = map (fun _ => []) exs /\
   sessionActive d p') /\
  (forall pre x post,
     exs = pre ++ x :: post ->
     existsb (hidesAddSetButton dom) pre = false ->
     hidesAddSetButton dom x = true ->
     modalShown p' = modalShown p /\
     modalSets p' = map (fun _ => []) pre /\
     ~ sessionActive d p').
Proof.
  intros exs p'.
  destruct exs as [|x0 l] eqn:He.
  - subst p'. unfold startWorkout. unfold exs in He. rewrite He.
    cbn [length Nat.eqb fst snd after threw existsb].
    split; [split; reflexivity |].
    split; [split; [discriminate | congruence] |].
    split; [reflexivity |].
    split; [congruence |].
    split; [split; discriminate |].
    split; [congruence |].
    intros pre x post H. destruct pre; discriminate H.
  - assert (Hne : atDay (schedule p) d <> []) by (fold exs; congruence).
    pose proof (startWorkout_bound dom d p Hne) as Hs.
    fold exs in Hs. rewrite He in Hs. subst p'. rewrite Hs.
    cbn [fst snd].
    set (p1 := withSession (Some d)
                 (Some (map (fun ex => {| name := ex; sets := [] |})
                            (x0 :: l))) p).
    destruct (openModal_frame dom (x0 :: l) p1)
      as (F1 & F2 & F3 & F4 & F5 & F6 & F7).
    split; [split; [discriminate | congruence] |].
    split; [split; [discriminate | reflexivity] |].
    split; [congruence |].
    split; [intros _; repeat split; assumption |].
    pose proof (modalExercises_threw dom (x0 :: l)) as Ht.
    split; [| split].
    + unfold openModal.
      destruct (modalExercises dom (x0 :: l)) as [containers thrown].
      cbn [snd] in Ht. rewrite <- Ht.
      destruct thrown; cbn [threw]; split; congruence.
    + intros _ Hq. unfold openModal, sessionActive.
      rewrite (modalExercises_quiet dom (x0 :: l) Hq).
      cbn [after modalShown modalSets withModal].
      split; [reflexivity | split; [reflexivity |]].
      split; [reflexivity |].
      change (schedule (withModal true (map (fun _ => []) (x0 :: l)) p1))
        with (schedule p).
      fold exs. rewrite He, length_map. apply le_n.
    + intros pre x post Hx Hpre Hh. unfold openModal, sessionActive.
      rewrite Hx, (modalExercises_throws dom pre post x Hpre Hh).
      cbn [after modalShown modalSets withModal].
      split; [reflexivity | split; [reflexivity |]].
      intros [_ Hlen].
      change (schedule (withModal (modalShown p1) (map (fun _ => []) pre) p1))
        with (schedule p) in Hlen.
      fold exs in Hlen. rewrite He, Hx in Hlen.
      rewrite length_map, length_app in Hlen. cbn [length] in Hlen. lia.
Qed.

Lemma textareaScheduled_reachable : reachable samplePage textareaScheduled.
Proof. unfold textareaScheduled. do 3 apply reach_handle. apply reach_first. Qed.

Lemma textareaScheduled_monday :
  atDay (schedule textareaScheduled) Monday
  = atType (workouts firstVisit) Push ++ u "<textarea>" :: [].
Proof. vm_compute. reflexivity. Qed.

(** Started on a Monday that lists [<textarea>] after the five seed
    exercises, [startWorkout] alerts nothing and throws: the session is
    bound, the modal is not shown and holds five containers. *)
Lemma startWorkout_empty_day_example :
  atDay (schedule textareaScheduled) Monday <> [] /\
  snd (startWorkout samplePage Monday textareaScheduled) = None /\
  threw (fst (startWorkout samplePage Monday textareaScheduled)) = true /\
  currentWorkoutDay
    (after (fst (startWorkout samplePage Monday textareaScheduled)))
  = Some Monday /\
  modalShown (after (fst (startWorkout samplePage Monday textareaScheduled)))
  = false /\
  length
    (modalSets (after (fst (startWorkout samplePage Monday textareaScheduled))))
  = 5.
Proof.
  pose proof (startWorkout_empty_day samplePage Monday textareaScheduled) as H.
  cbv zeta in H.
  destruct H as (_ & Hnone & _ & Hbound & Hthrew & _ & Hthrow).
  assert (Hne : atDay (schedule textareaScheduled) Monday <> []).
  { rewrite textareaScheduled_monday. discriminate. }
  split; [exact Hne |].
  split; [exact (proj2 Hnone Hne) |].
  split; [apply (proj2 Hthrew); vm_compute; reflexivity |].
  split; [exact (proj1 (Hbound Hne)) |].
  destruct (Hthrow _ _ _ textareaScheduled_monday eq_refl eq_refl)
    as (Hshown & Hsets & _).
  split; [rewrite Hshown; vm_compute; reflexivity |].
  rewrite Hsets. reflexivity.
Defined.

Lemma gtZero_true (q : Q) : gtZero q = true <-> (0 < q)%Q.
Proof.
  unfold gtZero. rewrite negb_true_iff. split.
  - intros H. apply Qnot_le_lt. intros Hle.
    apply Qle_bool_iff in Hle. congruence.
  - intros H. destruct (Qle_bool q 0) eqn:Hb; [| reflexivity].
    apply Qle_bool_iff in Hb. exfalso. apply (Qlt_not_le _ _ H Hb).
Qed.

(** Every set the inner loop keeps has reps above zero. *)
Lemma readSets_positive (rows : list setDiv) :
  Forall (fun x => (0 < reps x)%Q) (readSets rows).
Proof.
  induction rows as [|r rows IH]; simpl.
  - constructor.
  - destruct (gtZero (orZero (repsInput r))) eqn:Hg.
    + constructor; [apply gtZero_true; exact Hg | exact IH].
    + exact IH.
Qed.


Lemma readExercises_logged (exs : list str) (i : nat)
    (containers : list (list setDiv)) (logs : list exerciseLog) :
  readExercises exs i containers = Some logs -> Forall logged logs.
Proof.
  revert i logs. induction exs as [|nm exs IH]; intros i logs; simpl.
  - intros H; injection H as <-. constructor.
  - destruct (nth_error containers i) as [rows|]; [| discriminate].
    destruct (readExercises exs (S i) containers) as [rest|] eqn:Hr;
      [| discriminate].
    intros H; injection H as <-.
    specialize (IH _ _ Hr).
    destruct (readSets rows) as [|x l] eqn:Hs; cbn [length Nat.ltb Nat.leb].
    + exact IH.
    + constructor; [| exact IH].
      split; cbn [sets]; [discriminate |].
      rewrite <- Hs. apply readSets_positive.
Qed.

(** With a container for each exercise the outer loop does not throw. *)
Lemma readExercises_total (exs : list str) (i : nat)
    (containers : list (list setDiv)) :
  i + length exs <= length containers ->
  exists logs, readExercises exs i containers = Some logs.
Proof.
  revert i. induction exs as [|nm exs IH]; intros i H; simpl in *.
  - eexists; reflexivity.
  - destruct (nth_error containers i) as [rows|] eqn:Hn.
    + destruct (IH (S i)) as [rest ->]; [lia |]. eexists; reflexivity.
    + apply nth_error_None in Hn. lia.
Qed.


(** What [completeWorkout] returns when it returns. *)
Lemma completeWorkout_cases (now : str) (p p' : planner) (msg : string) :
  completeWorkout now p = Some (p', msg) ->
  exists d logs,
    currentWorkoutDay p = Some d /\
    readExercises (atDay (schedule p) d) 0 (modalSets p) = Some logs /\
    (logs = [] /\ p' = p /\ msg = logOneSetAlert
     \/
     logs <> [] /\ msg = completedAlert /\
     p' = closeModal
            (saveData
               (withProgress
                  (progress p
                   ++ [{| day := d; date := now; exercises := logs |}]) p))).
Proof.
  unfold completeWorkout.
  destruct (currentWorkoutDay p) as [d|]; [| discriminate].
  destruct (readExercises (atDay (schedule p) d) 0 (modalSets p))
    as [logs|] eqn:Hr; [| discriminate].
  intros H. exists d, logs. split; [reflexivity | split; [exact Hr |]].
  clear Hr.
  destruct logs as [|e logs]; cbn [length Nat.ltb Nat.leb] in H;
    injection H as <- <-.
  - left. auto.
  - right. repeat split. discriminate.
Qed.

Lemma sessionActive_reads (d : weekday) (p : planner) :
  sessionActive d p ->
  currentWorkoutDay p = Some d /\
  exists logs,
    readExercises (atDay (schedule p) d) 0 (modalSets p) = Some logs.
Proof.
  intros [Hd Hlen]. split; [exact Hd |].
  apply readExercises_total. simpl. lia.
Qed.

(** C3: whenever [completeWorkout] returns it either leaves the progress
    log alone or appends one record, for the day of the session and the
    given time, that holds at least one exercise log, each with at least
    one set, and every set with reps above zero; and in an active session
    it does return. *)
Theorem completeWorkout_record_logged (now : str) (p : planner) :
  (forall p' msg,
     completeWorkout now p = Some (p', msg) ->
     progress p' = progress p \/
     exists r,
       progress p' = progress p ++ [r] /\
       currentWorkoutDay p = Some (day r) /\ date r = now /\
       exercises r <> [] /\ Forall logged (exercises r)) /\
  (forall d,
     sessionActive d p ->
     exists p' msg, completeWorkout now p = Some (p', msg)).
Proof.
  split.
  - intros p' msg H.
    destruct (completeWorkout_cases _ _ _ _ H)
      as (d & logs & Hd & Hr & [(_ & -> & _) | (Hne & _ & ->)]).
    + left. reflexivity.
    + right. eexists. split; [reflexivity |].
      cbn [day date exercises]. repeat split; auto.
      apply (readExercises_logged _ _ _ _ Hr).
  - intros d Hs. destruct (sessionActive_reads d p Hs) as [Hd [logs Hr]].
    unfold completeWorkout. rewrite Hd, Hr.
    destruct (0 <? length logs); eexists; eexists; reflexivity.
Qed.

Lemma mondaySession_active : sessionActive Monday mondaySession.
Proof. split; [reflexivity | apply le_n]. Qed.

Lemma completeWorkout_record_logged_example :
  exists p' msg,
    completeWorkout (u "2024-01-15T10:00:00.000Z") mondaySession
    = Some (p', msg).
Proof.
  exact (proj2 (completeWorkout_record_logged
                  (u "2024-01-15T10:00:00.000Z") mondaySession)
               Monday mondaySession_active).
Defined.

(** Scenario C of the specification: of the two exercises only [A], with
    its set of 100 x 10, reaches the record. *)
Lemma completeWorkout_scenario :
  exists p',
    completeWorkout (u "2024-01-15T10:00:00.000Z") mondaySession
    = Some (p', completedAlert) /\
    progress p'
    = [{| day := Monday; date := u "2024-01-15T10:00:00.000Z";
          exercises :=
            [{| name := A_;
                sets := [{| weight := 100%Q; reps := 10%Q |}] |}] |}] /\
    currentWorkoutDay p' = None.
Proof. eexists. split; [reflexivity | split; reflexivity]. Qed.




Lemma sessionOutgrown_reachable : reachable samplePage sessionOutgrown.
Proof.
  unfold sessionOutgrown, dipsAdded. do 5 apply reach_handle.
  apply reach_first.
Qed.

(** C4: a session that the schedule has outgrown.  After an exercise is
    added to the category of the day while the session is bound, the day
    lists seven exercises and the shown modal holds six containers, none
    with a row.  No set has reps above zero, and [completeWorkout] does
    not raise the alert that a set must be logged: it throws at the
    container that is missing, with the object as it was.  That state is
    one the page reaches from the first visit. *)
Theorem completeWorkout_outgrown_session (now : str) :
  reachable samplePage sessionOutgrown /\
  currentWorkoutDay sessionOutgrown = Some Monday /\
  modalShown sessionOutgrown = true /\
  length (atDay (schedule sessionOutgrown) Monday) = 7 /\
  modalSets sessionOutgrown = [[]; []; []; []; []; []] /\
  noValidSet sessionOutgrown /\
  completeWorkout now sessionOutgrown = None /\
  run samplePage (ClickComplete now) sessionOutgrown = Thrown sessionOutgrown.
Proof.
  split; [exact sessionOutgrown_reachable |].
  assert (Hc : completeWorkout now sessionOutgrown = None)
    by (vm_compute; reflexivity).
  split; [vm_compute; reflexivity |].
  split; [vm_compute; reflexivity |].
  split; [vm_compute; reflexivity |].
  assert (Hm : modalSets sessionOutgrown = [[]; []; []; []; []; []])
    by (vm_compute; reflexivity).
  split; [exact Hm |].
  split; [unfold noValidSet; rewrite Hm; repeat constructor |].
  split; [exact Hc |].
  cbn [run]. rewrite Hc. reflexivity.
Qed.





(* ================================================================== *)
(** * The shuffle *)
(* ================================================================== *)

Section Swap.

Context {A : Type}.

Lemma assign_Permutation_cons (l : list A) (j : nat) (b x : A) :
  nth_error l j = Some b -> Permutation (b :: assign j x l) (x :: l).
Proof.
  revert j. induction l as [|y l IH]; intros [|j] H; simpl in *;
    try discriminate.
  - injection H as ->. apply perm_swap.
  - rewrite perm_swap. rewrite (IH j H). apply perm_swap.
Qed.

Lemma assign_assign_Permutation (l : list A) (i j : nat) (a b : A) :
  nth_error l i = Some a -> nth_error l j = Some b -> i <> j ->
  Permutation (assign j a (assign i b l)) l.
Proof.
  revert i j. induction l as [|y l IH]; intros [|i] [|j] Hi Hj Hne;
    simpl in *; try discriminate; try congruence.
  - injection Hi as ->. apply assign_Permutation_cons; assumption.
  - injection Hj as ->. apply assign_Permutation_cons; assumption.
  - constructor. apply IH; auto.
Qed.

(** A swap rearranges the array. *)
Lemma swap_Permutation (i j : nat) (l : list A) : Permutation (swap i j l) l.
Proof.
  unfold swap.
  destruct (nth_error l i) as [a|] eqn:Hi; [| reflexivity].
  destruct (nth_error l j) as [b|] eqn:Hj; [| reflexivity].
  destruct (Nat.eq_dec i j) as [-> | Hne].
  - assert (a = b) by congruence. subst b.
    rewrite (assign_same j a l Hi), (assign_same j a l Hi). reflexivity.
  - apply assign_assign_Permutation; assumption.
Qed.

Lemma length_swap (i j : nat) (l : list A) : length (swap i j l) = length l.
Proof. apply Permutation_length, swap_Permutation. Qed.

(** After the swap position [i] holds what position [j] held. *)
Lemma nth_error_swap (i j : nat) (l : list A) :
  i < length l -> j < length l -> nth_error (swap i j l) i = nth_error l j.
Proof.
  intros Hi Hj. unfold swap.
  destruct (nth_error l i) as [a|] eqn:Ha;
    [| apply nth_error_None in Ha; lia].
  destruct (nth_error l j) as [b|] eqn:Hb;
    [| apply nth_error_None in Hb; lia].
  destruct (Nat.eq_dec i j) as [-> | Hne].
  - assert (a = b) by congruence. subst b.
    apply nth_error_assign_eq. rewrite length_assign. assumption.
  - rewrite nth_error_assign_ne by auto.
    apply nth_error_assign_eq. assumption.
Qed.

Lemma swap_app_l (i j : nat) (l r : list A) :
  i < length l -> j < length l -> swap i j (l ++ r) = swap i j l ++ r.
Proof.
  intros Hi Hj. unfold swap.
  rewrite !nth_error_app1 by assumption.
  destruct (nth_error l i) as [a|]; [| reflexivity].
  destruct (nth_error l j) as [b|]; [| reflexivity].
  rewrite assign_app_l by assumption.
  rewrite assign_app_l by (rewrite length_assign; assumption).
  reflexivity.
Qed.

(** The round at the last index [i] moves the element at [j] to the end. *)
Lemma swap_split (i j : nat) (l : list A) :
  length l = S i -> j <= i ->
  exists pre x,
    swap i j l = pre ++ [x] /\ nth_error l j = Some x /\
    length pre = i /\ Permutation l (pre ++ [x]).
Proof.
  intros Hlen Hj.
  destruct (exists_last (l := swap i j l)) as (pre & x & He).
  { intros Hnil. apply (f_equal (@length A)) in Hnil.
    rewrite length_swap in Hnil. simpl in Hnil. lia. }
  assert (Hpre : length pre = i).
  { apply (f_equal (@length A)) in He.
    rewrite length_swap, length_app in He. simpl in He. lia. }
  exists pre, x. split; [exact He |]. split; [| split; [exact Hpre |]].
  - rewrite <- (nth_error_swap i j l) by lia.
    rewrite He, nth_error_app2 by lia.
    replace (i - length pre) with 0 by lia. reflexivity.
  - rewrite <- He. symmetry. apply swap_Permutation.
Qed.

Lemma shuffleFrom_Permutation (i : nat) (random : nat -> nat -> nat) (k : nat)
    (l : list A) :
  Permutation l (shuffleFrom i random k l).
Proof.
  revert k l. induction i as [|i IH]; intros k l; simpl.
  - reflexivity.
  - rewrite <- IH. symmetry. apply swap_Permutation.
Qed.

(** The loop is driven by the indices it draws. *)
Lemma shuffleFrom_shuffleBy (i : nat) (random : nat -> nat -> nat) (k : nat)
    (l : list A) :
  shuffleFrom i random k l = shuffleBy i (indicesFrom i random k) l.
Proof.
  revert k l. induction i as [|i IH]; intros k l; simpl.
  - reflexivity.
  - apply IH.
Qed.

End Swap.

(** A source that keeps each draw below its factor draws an index of
    [0 .. i] at round [i]. *)
Lemma randomIndex_range (random : nat -> nat -> nat) (k i : nat) :
  belowFactor random -> randomIndex random k i <= i.
Proof.
  intros Hr. unfold randomIndex.
  specialize (Hr k (i + 1)). lia.
Qed.

Lemma middle_belowFactor : belowFactor middle.
Proof.
  intros k n Hn. unfold middle. apply Nat.div_lt; lia.
Qed.

Lemma keepOrder_belowFactor : belowFactor keepOrder.
Proof. intros k n Hn. unfold keepOrder. lia. Qed.

Lemma sourceOf_belowFactor (js : list nat) : belowFactor (sourceOf js).
Proof. intros k n Hn. unfold sourceOf. lia. Qed.

(** ** The draw sequences *)

Lemma In_draws_succ (i : nat) (js : list nat) :
  In js (draws (S i)) <->
  exists j js', js = j :: js' /\ j <= S i /\ In js' (draws i).
Proof.
  cbn [draws]. rewrite in_flat_map. split.
  - intros (j & Hj & Hin). apply in_map_iff in Hin.
    destruct Hin as (js' & <- & Hjs'). apply in_seq in Hj.
    exists j, js'. repeat split; [lia | assumption].
  - intros (j & js' & -> & Hj & Hjs'). exists j. split.
    + apply in_seq. lia.
    + apply in_map. assumption.
Qed.

(** The indices drawn from a source that keeps each draw below its
    factor form one of the draw sequences. *)
Lemma indicesFrom_In_draws (i : nat) (random : nat -> nat -> nat) (k : nat) :
  belowFactor random -> In (indicesFrom i random k) (draws i).
Proof.
  intros Hr. revert k. induction i as [|i IH]; intros k.
  - left. reflexivity.
  - apply In_draws_succ. cbn [indicesFrom].
    exists (randomIndex random k (S i)), (indicesFrom i random (S k)).
    repeat split; [apply randomIndex_range, Hr | apply IH].
Qed.

(** The source made from a draw sequence draws that sequence. *)
Lemma indicesFrom_sourceOf (i : nat) (pre js : list nat) :
  In js (draws i) ->
  indicesFrom i (sourceOf (pre ++ js)) (length pre) = js.
Proof.
  revert pre js. induction i as [|i IH]; intros pre js Hjs.
  - destruct Hjs as [<- | []]. reflexivity.
  - apply In_draws_succ in Hjs. destruct Hjs as (j & js' & -> & Hj & Hjs').
    cbn [indicesFrom]. f_equal.
    + unfold randomIndex, sourceOf.
      rewrite app_nth2 by lia. rewrite Nat.sub_diag. cbn [nth]. lia.
    + specialize (IH (pre ++ [j]) js' Hjs').
      rewrite <- app_assoc, length_app in IH. cbn [app length] in IH.
      rewrite Nat.add_1_r in IH. exact IH.
Qed.

Lemma NoDup_map_cons (j : nat) (l : list (list nat)) :
  NoDup l -> NoDup (map (cons j) l).
Proof.
  induction 1 as [|a l Ha _ IH]; cbn [map]; constructor; [| exact IH].
  intros Hin. apply in_map_iff in Hin. destruct Hin as (b & Hb & Hin).
  injection Hb as ->. contradiction.
Qed.

Lemma NoDup_flat_map_cons (l : list (list nat)) (js : list nat) :
  NoDup l -> NoDup js ->
  NoDup (flat_map (fun j => map (cons j) l) js).
Proof.
  intros Hl Hjs. induction Hjs as [|j js Hj _ IH]; cbn [flat_map].
  - constructor.
  - apply NoDup_app.
    + apply NoDup_map_cons. exact Hl.
    + exact IH.
    + intros x Hx Hx'. apply in_map_iff in Hx. destruct Hx as (a & <- & _).
      apply in_flat_map in Hx'. destruct Hx' as (j' & Hj' & Hin).
      apply in_map_iff in Hin. destruct Hin as (b & Hb & _).
      injection Hb as -> _. contradiction.
Qed.

(** No draw sequence is listed twice. *)
Lemma NoDup_draws (i : nat) : NoDup (draws i).
Proof.
  induction i as [|i IH]; cbn [draws].
  - constructor; [intros [] | constructor].
  - apply NoDup_flat_map_cons; [exact IH | apply seq_NoDup].
Qed.

Lemma length_flat_map_const {X Y} (f : X -> list Y) (n : nat) (l : list X) :
  (forall x, length (f x) = n) -> length (flat_map f l) = length l * n.
Proof.
  intros H. induction l as [|x l IH]; simpl.
  - reflexivity.
  - rewrite length_app, H, IH. reflexivity.
Qed.

(** There are [(i + 1)!] draw sequences from round [i] on. *)
Lemma length_draws (i : nat) : length (draws i) = fact (S i).
Proof.
  induction i as [|i IH].
  - reflexivity.
  - cbn [draws].
    rewrite (length_flat_map_const _ (fact (S i))).
    + rewrite length_seq. reflexivity.
    + intros j. rewrite length_map. exact IH.
Qed.

(** Rounds [i .. 1] leave the elements past index [i] where they are. *)
Lemma shuffleBy_app (i : nat) (js : list nat) (pre suf : list str) :
  In js (draws i) -> length pre = S i ->
  shuffleBy i js (pre ++ suf) = shuffleBy i js pre ++ suf.
Proof.
  revert js pre suf. induction i as [|i IH]; intros js pre suf Hjs Hlen.
  - reflexivity.
  - apply In_draws_succ in Hjs. destruct Hjs as (j & js' & -> & Hj & Hjs').
    cbn [shuffleBy].
    rewrite swap_app_l by lia.
    destruct (swap_split (S i) j pre Hlen Hj) as (pre' & x & -> & _ & Hp & _).
    rewrite <- app_assoc.
    rewrite (IH js' pre' ([x] ++ suf) Hjs' Hp).
    rewrite (IH js' pre' [x] Hjs' Hp).
    rewrite <- app_assoc. reflexivity.
Qed.

Lemma count_occ_flat_map {X} (f : X -> list (list str)) (order : list str)
    (l : list X) :
  count_occ names_eq_dec (flat_map f l) order
  = list_sum (map (fun x => count_occ names_eq_dec (f x) order) l).
Proof.
  induction l as [|x l IH]; simpl.
  - reflexivity.
  - rewrite count_occ_app, IH. reflexivity.
Qed.

(** The first round splits the count over the index it draws. *)
Lemma waysFrom_succ (i : nat) (exercises order : list str) :
  waysFrom (S i) exercises order
  = list_sum (map (fun j => waysFrom i (swap (S i) j exercises) order)
                  (seq 0 (S (S i)))).
Proof.
  unfold waysFrom. cbn [draws].
  rewrite flat_map_concat_map, concat_map, map_map, <- flat_map_concat_map.
  rewrite count_occ_flat_map. f_equal.
  apply map_ext. intros j. rewrite map_map. reflexivity.
Qed.

Lemma count_occ_map_snoc {X} (h : X -> list str) (x y : str)
    (order : list str) (l : list X) :
  count_occ names_eq_dec (map (fun a => h a ++ [x]) l) (order ++ [y])
  = if str_eq_dec x y
    then count_occ names_eq_dec (map h l) order else 0.
Proof.
  induction l as [|a l IH]; simpl.
  - destruct (str_eq_dec x y); reflexivity.
  - rewrite IH.
    destruct (names_eq_dec (h a ++ [x]) (order ++ [y])) as [He | Hne].
    + apply app_inj_tail in He. destruct He as [-> ->].
      destruct (str_eq_dec y y); [| congruence].
      destruct (names_eq_dec order order); [reflexivity | congruence].
    + destruct (str_eq_dec x y) as [-> |]; [| reflexivity].
      destruct (names_eq_dec (h a) order) as [He |]; [| reflexivity].
      rewrite He in Hne. congruence.
Qed.

(** With the last element in place, the count is that of the rest. *)
Lemma waysFrom_snoc (i : nat) (pre order : list str) (x y : str) :
  length pre = S i ->
  waysFrom i (pre ++ [x]) (order ++ [y])
  = if str_eq_dec x y then waysFrom i pre order else 0.
Proof.
  intros Hlen. unfold waysFrom.
  rewrite <- count_occ_map_snoc. f_equal.
  apply map_ext_in. intros js Hjs. apply shuffleBy_app; assumption.
Qed.

(** ** Names that occur more than once *)

Lemma repeats_Permutation (l l' : list str) :
  Permutation l l' -> repeats l = repeats l'.
Proof.
  induction 1 as [| x l l' HP IH | x y l | l l' l'' _ IH1 _ IH2].
  - reflexivity.
  - cbn [repeats]. rewrite IH.
    rewrite (proj1 (Permutation_count_occ str_eq_dec l l') HP x).
    reflexivity.
  - cbn [repeats count_occ].
    destruct (str_eq_dec x y) as [-> | Hxy].
    + destruct (str_eq_dec y y); [| congruence]. reflexivity.
    + destruct (str_eq_dec y x); [congruence |]. lia.
  - congruence.
Qed.

Lemma repeats_positive (l : list str) : 0 < repeats l.
Proof.
  induction l as [|x l IH]; cbn [repeats]; [lia |].
  apply Nat.mul_pos_pos; lia.
Qed.

Lemma repeats_snoc (l pre : list str) (y : str) :
  Permutation l (pre ++ [y]) ->
  repeats l = count_occ str_eq_dec l y * repeats pre.
Proof.
  intros HP.
  assert (HP' : Permutation l (y :: pre)).
  { rewrite HP. apply Permutation_sym, Permutation_cons_append. }
  rewrite (repeats_Permutation _ _ HP').
  rewrite (proj1 (Permutation_count_occ str_eq_dec _ _) HP' y).
  cbn [repeats count_occ].
  destruct (str_eq_dec y y); [reflexivity | congruence].
Qed.

(** The positions of a list that hold [y] are as many as [y] occurs. *)
Lemma positions_count_occ (l : list str) (y : str) :
  list_sum
    (map (fun j => match nth_error l j with
                   | Some x => if str_eq_dec x y then 1 else 0
                   | None => 0
                   end)
         (seq 0 (length l)))
  = count_occ str_eq_dec l y.
Proof.
  induction l as [|a l IH]; [reflexivity |].
  cbn [length seq map list_sum nth_error count_occ].
  rewrite <- seq_shift, map_map. cbn [nth_error]. rewrite <- IH.
  destruct (str_eq_dec a y); reflexivity.
Qed.

Lemma list_sum_scaled {X} (f g : X -> nat) (c K : nat) (l : list X) :
  (forall x, In x l -> f x * c = K * g x) ->
  list_sum (map f l) * c = K * list_sum (map g l).
Proof.
  induction l as [|x l IH]; intros H; simpl.
  - lia.
  - rewrite Nat.mul_add_distr_r, Nat.mul_add_distr_l.
    rewrite (H x (or_introl eq_refl)), IH; [reflexivity |].
    intros z Hz. apply H. right. assumption.
Qed.

(** From round [i] on, a list of [i + 1] names reaches each of its
    permutations in [repeats] of the draw sequences. *)
Lemma waysFrom_repeats (i : nat) (exercises order : list str) :
  length exercises = S i -> Permutation exercises order ->
  waysFrom i exercises order = repeats exercises.
Proof.
  revert exercises order.
  induction i as [|i IH]; intros exercises order Hlen HP.
  - destruct exercises as [|a [|b l]]; try discriminate.
    apply Permutation_length_1_inv in HP. subst order.
    unfold waysFrom. cbn [draws map shuffleBy count_occ].
    destruct (names_eq_dec [a] [a]); [reflexivity | congruence].
  - destruct (exists_last (l := order)) as (q & y & ->).
    { intros ->. apply Permutation_length in HP. simpl in HP. lia. }
    set (c := count_occ str_eq_dec exercises y).
    assert (Hc : 0 < c).
    { apply count_occ_In. eapply Permutation_in;
        [apply Permutation_sym; exact HP |].
      apply in_or_app. right. left. reflexivity. }
    apply (Nat.mul_cancel_r _ _ c); [lia |].
    rewrite waysFrom_succ.
    rewrite <- Hlen.
    rewrite (list_sum_scaled _
               (fun j => match nth_error exercises j with
                         | Some x => if str_eq_dec x y then 1 else 0
                         | None => 0
                         end) c (repeats exercises)).
    + rewrite positions_count_occ. reflexivity.
    + intros j Hj. apply in_seq in Hj.
      destruct (swap_split (S i) j exercises Hlen)
        as (pre & x & -> & -> & Hpre & HPx); [lia |].
      rewrite (waysFrom_snoc i pre q x y Hpre).
      destruct (str_eq_dec x y) as [-> |]; [| lia].
      rewrite (IH pre q Hpre).
      * rewrite (repeats_snoc exercises pre y HPx). fold c. lia.
      * apply (Permutation_app_inv_r [y]).
        rewrite <- HPx. exact HP.
Qed.

(** Every permutation of the list comes out of the same number, not zero,
    of the draw sequences of the whole loop. *)
Lemma ways_repeats (exercises order : list str) :
  Permutation exercises order -> ways exercises order = repeats exercises.
Proof.
  intros HP. unfold ways.
  destruct exercises as [|a l].
  - apply Permutation_nil in HP. subst order. reflexivity.
  - apply waysFrom_repeats; [simpl; lia | exact HP].
Qed.

Lemma length_draws_fact (n : nat) : length (draws (n - 1)) = fact n.
Proof.
  rewrite length_draws. destruct n as [|n]; [reflexivity |].
  replace (S n - 1) with n by lia. reflexivity.
Qed.

Lemma randomizeDay_schedule (d : weekday) (random : nat -> nat -> nat)
    (p : planner) :
  atDay (schedule (randomizeDay d random p)) d
  = shuffle random (atType (workouts p) (getDayType d)).
Proof.
  unfold randomizeDay. cbn [schedule saveData withStorage withSchedule].
  apply atDay_setDay_eq.
Qed.

(** What [randomizeDay] leaves in the day under the source of a draw
    sequence is what the loop makes of the catalog list by those draws. *)
Lemma randomizedDays_shuffleBy (d : weekday) (p : planner) :
  let catalog := atType (workouts p) (getDayType d) in
  randomizedDays d p
  = map (fun js => shuffleBy (length catalog - 1) js catalog)
        (draws (length catalog - 1)).
Proof.
  intros catalog. unfold randomizedDays. fold catalog.
  apply map_ext_in. intros js Hjs.
  rewrite randomizeDay_schedule. fold catalog.
  unfold shuffle. rewrite shuffleFrom_shuffleBy.
  f_equal. exact (indicesFrom_sourceOf (length catalog - 1) [] js Hjs).
Qed.

Lemma chances_ways (d : weekday) (p : planner) (order : list str) :
  chances d p order = ways (atType (workouts p) (getDayType d)) order.
Proof.
  unfold chances, ways, waysFrom.
  rewrite randomizedDays_shuffleBy. reflexivity.
Qed.

(** C7: with every draw [Math.floor(Math.random() * (i + 1))] below its
    factor, as it is for [Math.random()] in [\[0, 1)], [randomizeDay]
    assigns to the day a permutation of the catalog list of its category:
    the list the loop makes of the catalog list by the indices it draws,
    which form one of the draw sequences.  For a list of [n] names there
    are [n!] draw sequences, no two the same, and a random source draws
    each of them; an unbiased source draws each equally often.  Under the
    sources of the draw sequences [randomizeDay] leaves every permutation
    of the catalog list in the day the same number of times, and not
    zero: with an unbiased source all permutations are equally likely. *)
Theorem randomizeDay_uniform_permutation (d : weekday) (p : planner) :
  let catalog := atType (workouts p) (getDayType d) in
  let rounds := length catalog - 1 in
  (forall random,
     belowFactor random ->
     let result := atDay (schedule (randomizeDay d random p)) d in
     Permutation catalog result /\
     In (indicesFrom rounds random 0) (draws rounds) /\
     result = shuffleBy rounds (indicesFrom rounds random 0) catalog) /\
  (forall js,
     In js (draws rounds) ->
     belowFactor (sourceOf js) /\ indicesFrom rounds (sourceOf js) 0 = js) /\
  length (draws rounds) = fact (length catalog) /\
  NoDup (draws rounds) /\
  (forall a b,
     Permutation catalog a -> Permutation catalog b ->
     chances d p a = chances d p b /\ 0 < chances d p a).
Proof.
  intros catalog rounds.
  split; [| split; [| split; [| split]]].
  - intros random Hr result.
    assert (He : result = shuffle random catalog)
      by apply randomizeDay_schedule.
    split; [| split].
    + rewrite He. apply shuffleFrom_Permutation.
    + apply indicesFrom_In_draws. exact Hr.
    + rewrite He. apply shuffleFrom_shuffleBy.
  - intros js Hjs. split; [apply sourceOf_belowFactor |].
    apply (indicesFrom_sourceOf rounds [] js Hjs).
  - apply length_draws_fact.
  - apply NoDup_draws.
  - intros a b Ha Hb. rewrite !chances_ways. fold catalog.
    rewrite (ways_repeats catalog a Ha), (ways_repeats catalog b Hb).
    split; [reflexivity | apply repeats_positive].
Qed.

Lemma randomizeDay_uniform_permutation_example :
  belowFactor middle /\
  Permutation (atType (workouts mondayShuffled) (getDayType Monday))
    (atDay (schedule (randomizeDay Monday middle mondayShuffled)) Monday) /\
  atDay (schedule (randomizeDay Monday middle mondayShuffled)) Monday
  = shuffleBy 2 [1; 1] [A_; B_; C_].
Proof.
  assert (H : belowFactor middle).
  { intros k n Hn. unfold middle. apply Nat.div_lt; lia. }
  split; [exact H |].
  destruct (proj1 (randomizeDay_uniform_permutation Monday mondayShuffled)
              middle H) as (HP & _ & He).
  split; [exact HP | exact He].
Defined.

(** With every draw at the middle index, [\[A, B, C\]] becomes [\[A, C, B\]]: round
    2 swaps positions 2 and 1, round 1 swaps position 1 with itself. *)
Lemma randomizeDay_sample :
  atDay (schedule (randomizeDay Monday middle mondayShuffled)) Monday
  = [A_; C_; B_].
Proof. reflexivity. Qed.

(** Under the sources of the six draw sequences for three names
    [randomizeDay] leaves each of the six orders once. *)
Lemma randomizedDays_sample :
  randomizedDays Monday mondayShuffled
  = [[B_; C_; A_]; [C_; B_; A_]; [C_; A_; B_];
     [A_; C_; B_]; [B_; A_; C_]; [A_; B_; C_]].
Proof. vm_compute. reflexivity. Qed.

(** The six draw sequences for three names give the six orders, each
    once. *)
Lemma ways_sample :
  map (fun js => shuffleBy 2 js [A_; B_; C_]) (draws 2)
  = [[B_; C_; A_]; [C_; B_; A_]; [C_; A_; B_];
     [A_; C_; B_]; [B_; A_; C_]; [A_; B_; C_]].
Proof. reflexivity. Qed.

(* ================================================================== *)
(** * States reached from the first visit *)
(* ================================================================== *)

Lemma NoDup_snoc (l : list str) (x : str) :
  NoDup l -> ~ In x l -> NoDup (l ++ [x]).
Proof.
  intros Hl Hx.
  apply (Permutation_NoDup (Permutation_cons_append l x)).
  constructor; assumption.
Qed.

Lemma NoDup_app_skipn {A} (k : nat) (l1 l2 : list A) :
  NoDup (l1 ++ l2) -> NoDup (l1 ++ skipn k l2).
Proof.
  revert l2. induction k as [|k IH]; intros l2 H.
  - exact H.
  - destruct l2 as [|x l2]; [exact H |].
    cbn [skipn]. apply IH. eapply NoDup_remove_1. exact H.
Qed.

Lemma spliceStart_range (index len : Z) :
  (0 <= len)%Z -> (0 <= spliceStart index len <= len)%Z.
Proof.
  intros H. unfold spliceStart.
  destruct (index <? 0)%Z eqn:Hn; [apply Z.ltb_lt in Hn | apply Z.ltb_ge in Hn];
    lia.
Qed.

Lemma NoDup_splice1 {A} (index : Z) (l : list A) :
  NoDup l -> NoDup (splice1 index l).
Proof.
  intros H. unfold splice1.
  pose proof (spliceStart_range index (Z.of_nat (length l))
                ltac:(lia)) as Hs.
  set (start := spliceStart index (Z.of_nat (length l))) in *.
  set (count := Z.min (Z.max 1 0) (Z.of_nat (length l) - start)).
  replace (Z.to_nat (start + count))
    with (Z.to_nat count + Z.to_nat start) by lia.
  rewrite <- skipn_skipn.
  apply NoDup_app_skipn. rewrite firstn_skipn. exact H.
Qed.

Lemma syncDay_duplicateFree (d : weekday) (p : planner) :
  duplicateFree p -> duplicateFree (syncDay d p).
Proof.
  intros [Hw Hs].
  destruct (syncDay_cases d p) as [[_ ->] | [_ ->]]; [| split; assumption].
  split; [exact Hw |]. intros d'. cbn [schedule withSchedule].
  destruct (weekday_eq_dec d d') as [<- | Hne].
  - rewrite atDay_setDay_eq. apply Hw.
  - rewrite atDay_setDay_ne by exact Hne. apply Hs.
Qed.

Lemma updateSchedule_duplicateFree (p : planner) :
  duplicateFree p -> duplicateFree (updateSchedule p).
Proof.
  unfold updateSchedule.
  generalize [Monday; Tuesday; Wednesday; Thursday; Friday; Saturday].
  intros days. revert p.
  induction days as [|d days IH]; intros p H; simpl.
  - exact H.
  - apply IH, syncDay_duplicateFree, H.
Qed.

Lemma duplicateFree_setType (t : workoutType) (l : list str) (p q : planner) :
  duplicateFree p -> NoDup l ->
  workouts q = setType t l (workouts p) -> schedule q = schedule p ->
  duplicateFree q.
Proof.
  intros [Hw Hs] Hl Hwq Hsq. split.
  - intros t'. rewrite Hwq. destruct t, t'; simpl; auto;
      first [apply (Hw Push) | apply (Hw Pull) | apply (Hw Legs)].
  - intros d. rewrite Hsq. apply Hs.
Qed.

Lemma duplicateFree_same (p q : planner) :
  duplicateFree p ->
  workouts q = workouts p -> schedule q = schedule p -> duplicateFree q.
Proof.
  intros [Hw Hs] Hwq Hsq. split; intros x; rewrite ?Hwq, ?Hsq; auto.
Qed.

Lemma addExercise_duplicateFree (dom : page) (t : workoutType)
    (p : planner) :
  duplicateFree p -> duplicateFree (after (addExercise dom t p)).
Proof.
  intros H. unfold addExercise.
  destruct (truthy_str _) eqn:Hn; cbn [andb]; [| exact H].
  destruct (includes (atType (workouts p) t) _) eqn:Hi; cbn [negb];
    [exact H |].
  assert (Hsaved : duplicateFree
            (saveData
               (withInput
                  (setType t []
                     (exerciseInput
                        (withWorkouts
                           (setType t
                              (atType (workouts p) t
                               ++ [trim (atType (exerciseInput p) t)])
                              (workouts p)) p)))
                  (withWorkouts
                     (setType t
                        (atType (workouts p) t
                         ++ [trim (atType (exerciseInput p) t)])
                        (workouts p)) p)))).
  { eapply (duplicateFree_setType t _ p);
      [exact H | | reflexivity | reflexivity].
    apply NoDup_snoc; [apply H | apply includes_not_In; exact Hi]. }
  destruct (renderWorkouts dom _); cbn [after];
    [apply updateSchedule_duplicateFree |]; exact Hsaved.
Qed.

Lemma removeExercise_duplicateFree (dom : page) (t : workoutType) (index : Z)
    (p : planner) :
  duplicateFree p -> duplicateFree (after (removeExercise dom t index p)).
Proof.
  intros H. unfold removeExercise.
  assert (Hsaved : duplicateFree
            (saveData
               (withWorkouts
                  (setType t (splice1 index (atType (workouts p) t))
                     (workouts p)) p))).
  { eapply (duplicateFree_setType t _ p);
      [exact H | | reflexivity | reflexivity].
    apply NoDup_splice1, H. }
  destruct (renderWorkouts dom _); cbn [after];
    [apply updateSchedule_duplicateFree |]; exact Hsaved.
Qed.

Lemma randomizeDay_duplicateFree (d : weekday) (random : nat -> nat -> nat)
    (p : planner) :
  duplicateFree p -> duplicateFree (randomizeDay d random p).
Proof.
  intros [Hw Hs]. split; [exact Hw |]. intros d'.
  unfold randomizeDay. cbn [schedule saveData withStorage withSchedule].
  destruct (weekday_eq_dec d d') as [<- | Hne].
  - rewrite atDay_setDay_eq.
    eapply Permutation_NoDup; [apply shuffleFrom_Permutation | apply Hw].
  - rewrite atDay_setDay_ne by exact Hne. apply Hs.
Qed.

Lemma firstVisit_duplicateFree : duplicateFree firstVisit.
Proof.
  split.
  - intros []; cbn; repeat constructor; simpl; intuition discriminate.
  - intros []; constructor.
Qed.

(** [startWorkout] writes the session and the modal only. *)
Lemma startWorkout_frame (dom : page) (d : weekday) (p : planner) :
  let p' := after (fst (startWorkout dom d p)) in
  workouts p' = workouts p /\ schedule p' = schedule p /\
  progress p' = progress p /\ exerciseInput p' = exerciseInput p /\
  localStorage p' = localStorage p.
Proof.
  unfold startWorkout.
  destruct (length (atDay (schedule p) d) =? 0); cbn [fst after].
  - repeat split.
  - match goal with |- context [openModal dom ?exs ?q] =>
      destruct (openModal_frame dom exs q)
        as (F1 & F2 & F3 & _ & _ & F6 & F7) end.
    repeat split; assumption.
Qed.

Lemma handle_duplicateFree (dom : page) (a : action) (p : planner) :
  duplicateFree p -> duplicateFree (handle dom a p).
Proof.
  intros H.
  destruct a as [t s | t | t i | d r | d | i | i k r | now |];
    unfold handle; cbn [run after].
  - exact H.
  - apply addExercise_duplicateFree, H.
  - apply removeExercise_duplicateFree, H.
  - apply randomizeDay_duplicateFree, H.
  - destruct (startWorkout_frame dom d p) as (Hw & Hs & _).
    apply (duplicateFree_same p); assumption.
  - unfold addSet. destruct (nth_error (modalSets p) i); exact H.
  - unfold fillSet. destruct (nth_error (modalSets p) i); exact H.
  - destruct (completeWorkout now p) as [[p' msg]|] eqn:Hc; [| exact H].
    destruct (completeWorkout_cases _ _ _ _ Hc)
      as (d & logs & _ & _ & [(_ & -> & _) | (_ & _ & ->)]); exact H.
  - exact H.
Qed.

(** Every write of the storage saves an object without repeated names. *)
Lemma handle_savedDuplicateFree (dom : page) (a : action) (p : planner) :
  duplicateFree p -> savedDuplicateFree p ->
  savedDuplicateFree (handle dom a p).
Proof.
  intros H Hsaved.
  destruct a as [t s | t | t i | d r | d | i | i k r | now |];
    unfold handle; cbn [run after].
  - exact Hsaved.
  - unfold addExercise.
    destruct (truthy_str _) eqn:Hn; cbn [andb]; [| exact Hsaved].
    destruct (includes (atType (workouts p) t) _) eqn:Hi; cbn [negb];
      [exact Hsaved |].
    eexists. split;
      [| destruct (renderWorkouts dom _); cbn [after];
         [apply updateSchedule_frame | reflexivity]].
    eapply (duplicateFree_setType t _ p);
      [exact H | | reflexivity | reflexivity].
    apply NoDup_snoc; [apply H | apply includes_not_In; exact Hi].
  - unfold removeExercise.
    eexists. split;
      [| destruct (renderWorkouts dom _); cbn [after];
         [apply updateSchedule_frame | reflexivity]].
    eapply (duplicateFree_setType t _ p);
      [exact H | | reflexivity | reflexivity].
    apply NoDup_splice1, H.
  - exists (randomizeDay d r p). split; [| reflexivity].
    apply randomizeDay_duplicateFree, H.
  - destruct (startWorkout_frame dom d p) as (_ & _ & _ & _ & Hl).
    destruct Hsaved as (q & Hq & Hs). exists q.
    split; [exact Hq | congruence].
  - unfold addSet. destruct (nth_error (modalSets p) i); exact Hsaved.
  - unfold fillSet. destruct (nth_error (modalSets p) i); exact Hsaved.
  - destruct (completeWorkout now p) as [[p' msg]|] eqn:Hc; [| exact Hsaved].
    destruct (completeWorkout_cases _ _ _ _ Hc)
      as (d & logs & _ & _ & [(_ & -> & _) | (_ & _ & ->)]);
      [exact Hsaved |].
    eexists. split; [| reflexivity]. exact H.
  - exact Hsaved.
Qed.

(** A reload brings back the catalog and the schedule that were saved. *)
Lemma reload_saved (p q : planner) :
  localStorage p = localStorage (saveData q) ->
  workouts (reload p) = workouts q /\
  schedule (reload p) = schedule q /\
  progress (reload p) = progress q /\
  localStorage (reload p) = localStorage p.
Proof.
  intros Hq. unfold reload, construct.
  rewrite (loadData_saved q (fields (localStorage p)) Hq).
  repeat split.
Qed.

(** From the first visit on, whatever the user does and however often the
    page is loaded again, no list of the catalog and no day of the
    schedule names an exercise twice. *)
Lemma reachable_duplicateFree (dom : page) (p : planner) :
  reachable dom p -> duplicateFree p.
Proof.
  intros H.
  assert (Hboth : duplicateFree p /\ savedDuplicateFree p);
    [| exact (proj1 Hboth)].
  induction H as [| a p _ [IH1 IH2] | p _ [IH1 IH2]].
  - split; [apply firstVisit_duplicateFree |].
    exists (withWorkouts defaultWorkouts (fields None)).
    split; [apply firstVisit_duplicateFree | reflexivity].
  - split; [apply handle_duplicateFree, IH1
           | apply handle_savedDuplicateFree; assumption].
  - destruct IH2 as (q & Hq & Hs).
    destruct (reload_saved p q Hs) as (Hw & Hsch & _ & Hls).
    split.
    + apply (duplicateFree_same q); assumption.
    + exists q. split; [exact Hq | congruence].
Qed.

(** So in every state reached from the first visit [sync] leaves the day
    a permutation of its catalog list. *)
Lemma syncDay_reachable (dom : page) (d : weekday) (p : planner) :
  reachable dom p ->
  Permutation (atDay (schedule (syncDay d p)) d)
              (atType (workouts p) (getDayType d)).
Proof.
  intros H. apply reachable_duplicateFree in H. destruct H as [_ Hs].
  pose proof (isScheduleValid_Permutation d p (Hs d)) as Hv.
  destruct (syncDay_cases d p) as [[_ ->] | [[_ Hval] ->]].
  - cbn [schedule withSchedule]. rewrite atDay_setDay_eq. reflexivity.
  - apply Hv. exact Hval.
Qed.

(** After [updateSchedule] every day is in step with the catalog, on a
    schedule without repeated names. *)
Lemma updateSchedule_reconciles (p : planner) :
  duplicateFree p ->
  forall d,
    Permutation (atDay (schedule (updateSchedule p)) d)
                (atType (workouts p) (getDayType d)).
Proof.
  intros H d.
  assert (Hday : forall days q,
             duplicateFree q -> workouts q = workouts p ->
             (In d days \/
              Permutation (atDay (schedule q) d)
                          (atType (workouts p) (getDayType d))) ->
             Permutation
               (atDay (schedule (fold_left (fun q d => syncDay d q) days q)) d)
               (atType (workouts p) (getDayType d))).
  { induction days as [|d0 days IH]; intros q Hq Hw Hor; simpl.
    - destruct Hor as [[] | HP]; exact HP.
    - destruct (syncDay_frame d0 q) as (Hw0 & _ & _ & _ & _ & _ & _ & _ & Hd0).
      apply IH.
      + apply syncDay_duplicateFree, Hq.
      + congruence.
      + destruct (weekday_eq_dec d0 d) as [-> | Hne].
        * right. rewrite <- Hw.
          destruct Hq as [_ Hs].
          pose proof (isScheduleValid_Permutation d q (Hs d)) as Hv.
          destruct (syncDay_cases d q) as [[_ ->] | [[_ Hval] ->]].
          -- cbn [schedule withSchedule]. rewrite atDay_setDay_eq.
             reflexivity.
          -- apply Hv. exact Hval.
        * destruct Hor as [[Heq | Hin] | HP].
          -- contradiction.
          -- left. exact Hin.
          -- right. rewrite (Hd0 d Hne). exact HP. }
  apply Hday; [exact H | reflexivity |].
  left. destruct d; simpl; auto 10.
Qed.

(* ================================================================== *)
(** * More on the schedule *)
(* ================================================================== *)

Lemma byDay_ext {A} (a b : byDay A) :
  (forall d, atDay a d = atDay b d) -> a = b.
Proof.
  intros H. destruct a, b.
  pose proof (H Monday). pose proof (H Tuesday). pose proof (H Wednesday).
  pose proof (H Thursday). pose proof (H Friday). pose proof (H Saturday).
  simpl in *. congruence.
Qed.

Lemma planner_ext (p q : planner) :
  workouts p = workouts q -> schedule p = schedule q ->
  progress p = progress q ->
  currentWorkoutDay p = currentWorkoutDay q ->
  currentWorkoutData p = currentWorkoutData q ->
  exerciseInput p = exerciseInput q -> modalShown p = modalShown q ->
  modalSets p = modalSets q -> localStorage p = localStorage q ->
  p = q.
Proof. destruct p, q; simpl; intros; congruence. Qed.

(** What [syncDay] leaves in its day. *)
Lemma syncDay_day (d : weekday) (p : planner) :
  atDay (schedule (syncDay d p)) d
  = if (length (atDay (schedule p) d) =? 0) || negb (isScheduleValid d p)
    then atType (workouts p) (getDayType d)
    else atDay (schedule p) d.
Proof.
  unfold syncDay.
  destruct ((length (atDay (schedule p) d) =? 0)
            || negb (isScheduleValid d p)); [| reflexivity].
  cbn [schedule withSchedule]. apply atDay_setDay_eq.
Qed.

(** The check and the re-sync of a day read the day and the catalog list
    of its category only. *)
Lemma isScheduleValid_ext (d : weekday) (p q : planner) :
  atType (workouts q) (getDayType d) = atType (workouts p) (getDayType d) ->
  atDay (schedule q) d = atDay (schedule p) d ->
  isScheduleValid d q = isScheduleValid d p.
Proof. intros Hw Hs. unfold isScheduleValid. rewrite Hw, Hs. reflexivity. Qed.

Lemma syncDay_day_ext (d : weekday) (p q : planner) :
  atType (workouts q) (getDayType d) = atType (workouts p) (getDayType d) ->
  atDay (schedule q) d = atDay (schedule p) d ->
  atDay (schedule (syncDay d q)) d = atDay (schedule (syncDay d p)) d.
Proof.
  intros Hw Hs. rewrite !syncDay_day.
  rewrite (isScheduleValid_ext d p q Hw Hs), Hw, Hs. reflexivity.
Qed.

Lemma fold_syncDay_day (d : weekday) (days : list weekday) :
  NoDup days ->
  forall q,
    atDay (schedule (fold_left (fun q d => syncDay d q) days q)) d
    = if in_dec weekday_eq_dec d days
      then atDay (schedule (syncDay d q)) d
      else atDay (schedule q) d.
Proof.
  induction 1 as [| d0 days Hnin Hnd IH]; intros q.
  - reflexivity.
  - cbn [fold_left]. rewrite IH.
    destruct (syncDay_frame d0 q) as (Hw & _ & _ & _ & _ & _ & _ & _ & Hd0).
    destruct (weekday_eq_dec d0 d) as [-> | Hne].
    + destruct (in_dec weekday_eq_dec d days) as [Hin | _]; [contradiction |].
      destruct (in_dec weekday_eq_dec d (d :: days)) as [_ | Hno];
        [reflexivity | exfalso; apply Hno; left; reflexivity].
    + destruct (in_dec weekday_eq_dec d days) as [Hin | Hno].
      * destruct (in_dec weekday_eq_dec d (d0 :: days)) as [_ | Hno];
          [| exfalso; apply Hno; right; exact Hin].
        apply syncDay_day_ext; [rewrite Hw; reflexivity | apply Hd0, Hne].
      * destruct (in_dec weekday_eq_dec d (d0 :: days)) as [[Heq | Hin] | _];
          [contradiction | contradiction | apply Hd0, Hne].
Qed.

Lemma updateSchedule_day (d : weekday) (p : planner) :
  atDay (schedule (updateSchedule p)) d = atDay (schedule (syncDay d p)) d.
Proof.
  unfold updateSchedule. rewrite fold_syncDay_day.
  - destruct (in_dec weekday_eq_dec d
                [Monday; Tuesday; Wednesday; Thursday; Friday; Saturday])
      as [_ | Hno]; [reflexivity |].
    exfalso. apply Hno. destruct d; simpl; auto 10.
  - repeat constructor; simpl; intuition discriminate.
Qed.

(** X1: [updateSchedule] re-syncs each of the six days as [syncDay] would on
    the object it was given: no day's outcome depends on another day, and
    nothing but the schedule is written. *)
Theorem updateSchedule_each_day (p : planner) :
  (forall d,
     atDay (schedule (updateSchedule p)) d
     = atDay (schedule (syncDay d p)) d) /\
  workouts (updateSchedule p) = workouts p /\
  progress (updateSchedule p) = progress p /\
  localStorage (updateSchedule p) = localStorage p.
Proof.
  split; [intros d; apply updateSchedule_day |].
  destruct (updateSchedule_frame p) as (H1 & H2 & _ & _ & _ & _ & _ & H8).
  auto.
Qed.

Lemma includes_self (l : list str) :
  forallb (fun ex => includes l ex) l = true.
Proof. apply forallb_forall. intros x Hx. apply includes_In. exact Hx. Qed.

(** Once re-synced, a day is stable: on any object with the same catalog
    list and the day as [syncDay] left it, [syncDay] writes the same. *)
Lemma syncDay_day_stable (d : weekday) (p q : planner) :
  atType (workouts q) (getDayType d) = atType (workouts p) (getDayType d) ->
  atDay (schedule q) d = atDay (schedule (syncDay d p)) d ->
  atDay (schedule (syncDay d q)) d = atDay (schedule (syncDay d p)) d.
Proof.
  intros Hw Hs. rewrite (syncDay_day d q), Hs, Hw.
  unfold isScheduleValid. rewrite Hs, Hw.
  rewrite (syncDay_day d p).
  destruct ((length (atDay (schedule p) d) =? 0)
            || negb (isScheduleValid d p)) eqn:Hc.
  - match goal with |- (if ?c then _ else _) = _ => destruct c end;
      reflexivity.
  - apply orb_false_iff in Hc. destruct Hc as [Hlen Hval].
    rewrite Hlen. apply negb_false_iff in Hval.
    unfold isScheduleValid in Hval. rewrite Hval. reflexivity.
Qed.

(** X2: running [updateSchedule] a second time changes nothing. *)
Theorem updateSchedule_idempotent (p : planner) :
  updateSchedule (updateSchedule p) = updateSchedule p.
Proof.
  destruct (updateSchedule_frame (updateSchedule p))
    as (H1 & H2 & H3 & H4 & H5 & H6 & H7 & H8).
  apply planner_ext; try assumption.
  apply byDay_ext. intros d.
  rewrite (updateSchedule_day d (updateSchedule p)).
  rewrite (updateSchedule_day d p).
  apply syncDay_day_stable.
  - rewrite (proj1 (updateSchedule_frame p)). reflexivity.
  - apply updateSchedule_day.
Qed.

Lemma mondayStale_duplicateFree : duplicateFree mondayStale.
Proof.
  split.
  - intros []; cbn; repeat constructor; simpl; intuition discriminate.
  - intros []; cbn; repeat constructor; simpl; intuition discriminate.
Qed.

(** X3: on an object without repeated names, after [updateSchedule] each of
    the six days is a permutation of the catalog list of its category. *)
Theorem updateSchedule_all_days (p : planner) :
  duplicateFree p ->
  forall d,
    Permutation (atDay (schedule (updateSchedule p)) d)
                (atType (workouts (updateSchedule p)) (getDayType d)).
Proof.
  intros H d. rewrite (proj1 (updateSchedule_frame p)).
  apply updateSchedule_reconciles. exact H.
Qed.

Lemma updateSchedule_all_days_example :
  Permutation (atDay (schedule (updateSchedule mondayStale)) Monday)
              (atType (workouts (updateSchedule mondayStale))
                      (getDayType Monday)).
Proof.
  exact (updateSchedule_all_days mondayStale mondayStale_duplicateFree Monday).
Defined.

(** A day that passes the check is left alone by [syncDay]. *)
Lemma syncDay_keeps_valid (d : weekday) (p : planner) :
  isScheduleValid d p = true ->
  atDay (schedule (syncDay d p)) d = atDay (schedule p) d.
Proof.
  intros Hv. rewrite syncDay_day, Hv. cbn [negb]. rewrite orb_false_r.
  destruct (atDay (schedule p) d) as [|x l] eqn:Hs; [| reflexivity].
  apply isScheduleValid_true in Hv. destruct Hv as [_ Hlen].
  rewrite Hs in Hlen. cbn [length Nat.eqb].
  destruct (atType (workouts p) (getDayType d)); [reflexivity | discriminate].
Qed.

Lemma randomizeDay_valid (d : weekday) (random : nat -> nat -> nat)
    (p : planner) :
  isScheduleValid d (randomizeDay d random p) = true.
Proof.
  apply isScheduleValid_true. rewrite randomizeDay_schedule.
  assert (HP : Permutation (atType (workouts p) (getDayType d))
                 (shuffle random (atType (workouts p) (getDayType d))))
    by apply shuffleFrom_Permutation.
  change (workouts (randomizeDay d random p)) with (workouts p). split.
  - intros x Hx. eapply Permutation_in; [symmetry; exact HP | exact Hx].
  - symmetry. apply Permutation_length. exact HP.
Qed.

Lemma addExercise_workouts (dom : page) (t : workoutType) (p : planner) :
  workouts (after (addExercise dom t p)) = workouts p \/
  workouts (after (addExercise dom t p))
  = setType t (atType (workouts p) t ++ [trim (atType (exerciseInput p) t)])
            (workouts p).
Proof.
  destruct (addExercise_cases dom t p) as [[_ ->] | [_ ->]]; auto.
Qed.

Lemma removeExercise_workouts (dom : page) (t : workoutType) (index : Z)
    (p : planner) :
  workouts (after (removeExercise dom t index p))
  = setType t (splice1 index (atType (workouts p) t)) (workouts p).
Proof.
  unfold removeExercise.
  destruct (renderWorkouts dom _); cbn [after]; [| reflexivity].
  rewrite (proj1 (updateSchedule_frame _)). reflexivity.
Qed.

(** The schedule [addExercise] and [removeExercise] leave in a day: when
    the rendering throws, the schedule as it was; otherwise what
    [syncDay] makes of the old day on the new catalog. *)
Lemma addExercise_day (dom : page) (t : workoutType) (p : planner)
    (d : weekday) :
  addExercise dom t p = Returned p \/
  threw (addExercise dom t p) = true /\
  schedule (after (addExercise dom t p)) = schedule p \/
  threw (addExercise dom t p) = false /\
  atDay (schedule (after (addExercise dom t p))) d
  = atDay (schedule
             (syncDay d
                (withWorkouts
                   (setType t
                      (atType (workouts p) t
                       ++ [trim (atType (exerciseInput p) t)])
                      (workouts p)) p))) d.
Proof.
  unfold addExercise.
  destruct (truthy_str _ && negb _); [right | left; reflexivity].
  destruct (renderWorkouts dom _); cbn [after threw].
  - right. split; [reflexivity |].
    rewrite updateSchedule_day. apply syncDay_day_ext; reflexivity.
  - left. split; reflexivity.
Qed.

Lemma removeExercise_day (dom : page) (t : workoutType) (index : Z)
    (p : planner) (d : weekday) :
  threw (removeExercise dom t index p) = true /\
  schedule (after (removeExercise dom t index p)) = schedule p \/
  threw (removeExercise dom t index p) = false /\
  atDay (schedule (after (removeExercise dom t index p))) d
  = atDay (schedule
             (syncDay d
                (withWorkouts
                   (setType t (splice1 index (atType (workouts p) t))
                      (workouts p)) p))) d.
Proof.
  unfold removeExercise.
  destruct (renderWorkouts dom _); cbn [after threw].
  - right. split; [reflexivity |].
    rewrite updateSchedule_day. apply syncDay_day_ext; reflexivity.
  - left. split; reflexivity.
Qed.

(** A day in step with its catalog list keeps its order when the catalog
    of another category changes. *)
Lemma other_type_keeps_day (t : workoutType) (p : planner) (d : weekday)
    (l : list str) :
  isScheduleValid d p = true -> getDayType d <> t ->
  atDay (schedule (syncDay d (withWorkouts (setType t l (workouts p)) p))) d
  = atDay (schedule p) d.
Proof.
  intros Hv Hne.
  rewrite syncDay_keeps_valid; [reflexivity |].
  rewrite <- Hv. apply isScheduleValid_ext; [| reflexivity].
  cbn [workouts withWorkouts]. apply atType_setType_ne. congruence.
Qed.

(** X4: the order [randomizeDay] gave a day survives a later [updateSchedule],
    and adding to or deleting from the catalog of another category,
    whether or not the handler throws. *)
Theorem randomized_order_survives (dom : page) (d : weekday)
    (random : nat -> nat -> nat) (p : planner) (t : workoutType) :
  getDayType d <> t ->
  let q := randomizeDay d random p in
  atDay (schedule (updateSchedule q)) d = atDay (schedule q) d /\
  (forall s, atDay (schedule (after (add dom t s q))) d = atDay (schedule q) d) /\
  (forall index,
     atDay (schedule (after (removeExercise dom t index q))) d
     = atDay (schedule q) d).
Proof.
  intros Hne q.
  pose proof (randomizeDay_valid d random p) as Hv. fold q in Hv.
  split; [| split].
  - rewrite updateSchedule_day. apply syncDay_keeps_valid. exact Hv.
  - intros s. unfold add.
    assert (Hv' : isScheduleValid d (typeExercise t s q) = true)
      by exact Hv.
    destruct (addExercise_day dom t (typeExercise t s q) d)
      as [-> | [[_ ->] | [_ ->]]].
    + reflexivity.
    + reflexivity.
    + rewrite (other_type_keeps_day t _ d _ Hv' Hne). reflexivity.
  - intros index.
    destruct (removeExercise_day dom t index q d) as [[_ ->] | [_ ->]].
    + reflexivity.
    + apply other_type_keeps_day; assumption.
Qed.

Lemma randomized_order_survives_example :
  atDay (schedule
           (after (add samplePage Pull (u "Chin-ups")
                     (randomizeDay Monday middle mondayShuffled))))
        Monday
  = atDay (schedule (randomizeDay Monday middle mondayShuffled)) Monday.
Proof.
  refine (proj1 (proj2 (randomized_order_survives samplePage Monday middle
                          mondayShuffled Pull _)) (u "Chin-ups")).
  discriminate.
Defined.

Lemma length_splice1 {A} (index : Z) (l : list A) :
  (index < Z.of_nat (length l))%Z ->
  length (splice1 index l) = length l - 1.
Proof.
  intros H. unfold splice1.
  pose proof (spliceStart_range index (Z.of_nat (length l)) ltac:(lia)) as Hs.
  assert (Hlt : length l = 0 \/
                (spliceStart index (Z.of_nat (length l))
                 < Z.of_nat (length l))%Z).
  { unfold spliceStart in *.
    destruct (index <? 0)%Z eqn:Hn;
      [apply Z.ltb_lt in Hn | apply Z.ltb_ge in Hn]; lia. }
  rewrite length_app, length_firstn, length_skipn. lia.
Qed.

(** X5: when the handler returns, adding to or deleting from the catalog
    list of a category puts the days of that category that had the length
    of the list back into catalog order: an order from [randomizeDay] is
    lost.  When the handler throws, in the rendering of the catalog
    lists, the days are not written. *)
Theorem catalog_change_resets_order (dom : page) (t : workoutType)
    (d : weekday) (p : planner) :
  getDayType d = t ->
  length (atDay (schedule p) d) = length (atType (workouts p) t) ->
  (forall s,
     trim s <> [] -> ~ In (trim s) (atType (workouts p) t) ->
     (threw (add dom t s p) = false ->
      atDay (schedule (after (add dom t s p))) d
      = atType (workouts p) t ++ [trim s]) /\
     (threw (add dom t s p) = true ->
      schedule (after (add dom t s p)) = schedule p)) /\
  (forall index,
     (index < Z.of_nat (length (atType (workouts p) t)))%Z ->
     (threw (removeExercise dom t index p) = false ->
      atDay (schedule (after (removeExercise dom t index p))) d
      = splice1 index (atType (workouts p) t)) /\
     (threw (removeExercise dom t index p) = true ->
      schedule (after (removeExercise dom t index p)) = schedule p)).
Proof.
  intros Ht Hlen. split.
  - intros s Hne Hni. unfold add.
    assert (Hcase : addExercise dom t (typeExercise t s p)
                    <> Returned (typeExercise t s p)).
    { intros He.
      destruct (addExercise_cases dom t (typeExercise t s p))
        as [[Hno _] | [_ Hw]].
      - cbn [typeExercise exerciseInput workouts withInput] in Hno.
        rewrite atType_setType_eq in Hno. tauto.
      - rewrite He in Hw. cbn [after] in Hw.
        apply (f_equal (fun w => length (atType w t))) in Hw.
        rewrite atType_setType_eq, length_app in Hw. simpl in Hw. lia. }
    destruct (addExercise_day dom t (typeExercise t s p) d)
      as [He | [[Hthrew Hs] | [Hthrew Hs]]]; [contradiction | |].
    + split; [congruence | intros _; exact Hs].
    + split; [intros _ | congruence]. rewrite Hs.
      rewrite syncDay_day.
      cbn [typeExercise exerciseInput workouts schedule withInput
           withWorkouts].
      rewrite Ht, !atType_setType_eq.
      unfold isScheduleValid.
      cbn [typeExercise exerciseInput workouts schedule withInput
           withWorkouts].
      rewrite Ht, !atType_setType_eq, Hlen, length_app.
      replace (length (atType (workouts p) t)
               =? length (atType (workouts p) t) + length [trim s])
        with false by (symmetry; apply Nat.eqb_neq; simpl; lia).
      rewrite andb_false_r, orb_true_r. reflexivity.
  - intros index Hi.
    destruct (removeExercise_day dom t index p d)
      as [[Hthrew Hs] | [Hthrew Hs]].
    + split; [congruence | intros _; exact Hs].
    + split; [intros _ | congruence]. rewrite Hs, syncDay_day.
      cbn [workouts schedule withWorkouts].
      rewrite Ht, atType_setType_eq.
      unfold isScheduleValid. cbn [workouts schedule withWorkouts].
      rewrite Ht, atType_setType_eq, Hlen, (length_splice1 index _ Hi).
      destruct (length (atType (workouts p) t)) as [|n] eqn:Hn.
      * reflexivity.
      * replace (S n =? S n - 1) with false
          by (symmetry; apply Nat.eqb_neq; lia).
        rewrite andb_false_r, orb_true_r. reflexivity.
Qed.

Lemma catalog_change_resets_order_example :
  atDay (schedule (after (add samplePage Push (u "Dips") mondayShuffled)))
        Monday
  = [A_; B_; C_; u "Dips"].
Proof.
  refine (proj1 (proj1 (catalog_change_resets_order samplePage Push Monday
                          mondayShuffled eq_refl eq_refl) (u "Dips") _ _) _).
  - discriminate.
  - simpl. intuition discriminate.
  - vm_compute. reflexivity.
Defined.

(* ================================================================== *)
(** * More on the catalog *)
(* ================================================================== *)

Lemma In_exerciseItems (dom : page) (ex : str) (i : Z) (k : nat)
    (l : list str) (items : list listItem) :
  exerciseItems dom k l = Some items ->
  In (ExerciseItem ex i) items ->
  exists n, i = Z.of_nat (k + n) /\ nth_error l n = Some ex.
Proof.
  revert k items.
  induction l as [|x l IH]; intros k items Hr H; cbn [exerciseItems] in Hr.
  - injection Hr as <-. contradiction.
  - destruct (hidesDeleteButton dom x); [discriminate |].
    destruct (exerciseItems dom (S k) l) as [rest|] eqn:Hrest;
      [| discriminate].
    injection Hr as <-. destruct H as [H | H].
    + injection H as -> <-. exists 0. split; [f_equal; lia | reflexivity].
    + destruct (IH (S k) rest Hrest H) as (n & -> & Hn).
      exists (S n). split; [f_equal; lia | exact Hn].
Qed.

Lemma renderWorkouts_type (dom : page) (t : workoutType) (p : planner)
    (lists : byType (list listItem)) :
  renderWorkouts dom p = Some lists ->
  renderList dom (atType (workouts p) t) = Some (atType lists t).
Proof.
  intros H. unfold renderWorkouts in H.
  destruct (renderList dom (atType (workouts p) Push)) as [a|] eqn:Ha;
    [| discriminate].
  destruct (renderList dom (atType (workouts p) Pull)) as [b|] eqn:Hb;
    [| discriminate].
  destruct (renderList dom (atType (workouts p) Legs)) as [c|] eqn:Hc;
    [| discriminate].
  injection H as <-. destruct t; assumption.
Qed.

Lemma nth_error_split_at {A} (n : nat) (l : list A) (x : A) :
  nth_error l n = Some x -> l = firstn n l ++ x :: skipn (S n) l.
Proof.
  revert l. induction n as [|n IH]; intros [|y l] H; simpl in *;
    try discriminate.
  - injection H as ->. reflexivity.
  - f_equal. apply IH. exact H.
Qed.

(** X6: when [renderWorkouts] returns, the delete button it has put next
    to an exercise, clicked on the catalog it was rendered from, takes
    out that exercise and no other: the list keeps the exercises before
    and after it in order, the other categories stay, and on a list
    without repeated names the exercise is gone. *)
Theorem delete_button_removes_its_exercise (dom : page) (t : workoutType)
    (p : planner) (lists : byType (list listItem)) (ex : str) (index : Z) :
  renderWorkouts dom p = Some lists ->
  In (ExerciseItem ex index) (atType lists t) ->
  let p' := after (removeExercise dom t index p) in
  exists n,
    index = Z.of_nat n /\
    nth_error (atType (workouts p) t) n = Some ex /\
    atType (workouts p') t
    = firstn n (atType (workouts p) t) ++ skipn (S n) (atType (workouts p) t) /\
    (forall t', t <> t' -> atType (workouts p') t' = atType (workouts p) t') /\
    (NoDup (atType (workouts p) t) -> ~ In ex (atType (workouts p') t)).
Proof.
  intros Hr H p'. subst p'.
  pose proof (renderWorkouts_type dom t p lists Hr) as Ht.
  unfold renderList in Ht.
  destruct (length (atType (workouts p) t) =? 0).
  { injection Ht as Ht. rewrite <- Ht in H.
    destruct H as [H | []]. discriminate H. }
  destruct (In_exerciseItems _ _ _ _ _ _ Ht H) as (n & -> & Hn).
  exists n. cbn [Nat.add]. split; [reflexivity |]. split; [exact Hn |].
  rewrite removeExercise_workouts, atType_setType_eq.
  assert (Hlt : n < length (atType (workouts p) t))
    by (apply nth_error_Some; congruence).
  rewrite (splice1_inside n _ Hlt).
  split; [reflexivity |]. split.
  - intros t' Ht'. apply atType_setType_ne. exact Ht'.
  - intros Hnd. rewrite (nth_error_split_at n _ ex Hn) in Hnd.
    apply NoDup_remove_2 in Hnd. exact Hnd.
Qed.

Lemma mondayShuffled_rendered :
  renderWorkouts samplePage mondayShuffled
  = Some {| push := [ExerciseItem A_ 0; ExerciseItem B_ 1; ExerciseItem C_ 2];
            pull := [EmptyState]; legs := [EmptyState] |}.
Proof. vm_compute. reflexivity. Qed.

Lemma delete_button_removes_its_exercise_example :
  exists n,
    1%Z = Z.of_nat n /\
    nth_error (atType (workouts mondayShuffled) Push) n = Some B_ /\
    atType (workouts (after (removeExercise samplePage Push 1 mondayShuffled)))
           Push
    = firstn n (atType (workouts mondayShuffled) Push)
      ++ skipn (S n) (atType (workouts mondayShuffled) Push) /\
    (forall t', Push <> t' ->
       atType (workouts (after (removeExercise samplePage Push 1
                                  mondayShuffled))) t'
       = atType (workouts mondayShuffled) t') /\
    (NoDup (atType (workouts mondayShuffled) Push) ->
     ~ In B_ (atType (workouts (after (removeExercise samplePage Push 1
                                         mondayShuffled))) Push)).
Proof.
  apply (delete_button_removes_its_exercise samplePage Push mondayShuffled _
           B_ 1 mondayShuffled_rendered).
  simpl. auto.
Defined.

Lemma length_splice1_succ {A} (index : Z) (l : list A) :
  l <> [] -> (index < Z.of_nat (length l))%Z ->
  S (length (splice1 index l)) = length l.
Proof.
  intros Hne Hi. rewrite (length_splice1 index l Hi).
  destruct l; [congruence | cbn [length]; lia].
Qed.

Lemma splice1_nil {A} (index : Z) : splice1 index (@nil A) = [].
Proof.
  unfold splice1. rewrite firstn_nil, skipn_nil. reflexivity.
Qed.

(** X7: on a list that is not empty, [removeExercise] deletes exactly one
    exercise for every index below the length of the list: an index
    below zero counts from the end, and one below minus the length takes
    out the first exercise.  An empty list stays empty whatever the
    index. *)
Theorem removeExercise_below_length (dom : page) (t : workoutType)
    (index : Z) (p : planner) :
  let l := atType (workouts p) t in
  let l' := atType (workouts (after (removeExercise dom t index p))) t in
  (l = [] -> l' = []) /\
  (l <> [] -> (index < Z.of_nat (length l))%Z ->
   S (length l') = length l /\
   ((0 <= index)%Z ->
    l' = firstn (Z.to_nat index) l ++ skipn (S (Z.to_nat index)) l) /\
   ((- Z.of_nat (length l) <= index < 0)%Z ->
    l' = firstn (length l - Z.to_nat (- index)) l
         ++ skipn (S (length l - Z.to_nat (- index))) l) /\
   ((index < - Z.of_nat (length l))%Z -> l' = skipn 1 l)).
Proof.
  intros l l'. subst l'.
  rewrite removeExercise_workouts, atType_setType_eq. fold l.
  split; [intros ->; apply splice1_nil |].
  intros Hne Hi.
  split; [apply length_splice1_succ; assumption |].
  split; [| split].
  - intros H0.
    rewrite <- (splice1_inside (Z.to_nat index) l) by lia.
    rewrite Z2Nat.id by exact H0. reflexivity.
  - intros [Hlo Hhi]. unfold splice1, spliceStart.
    replace (index <? 0)%Z with true by (symmetry; apply Z.ltb_lt; lia).
    rewrite Z.max_l by lia.
    replace (Z.min (Z.max 1 0)
               (Z.of_nat (length l) - (Z.of_nat (length l) + index)))
      with 1%Z by lia.
    replace (Z.to_nat (Z.of_nat (length l) + index))
      with (length l - Z.to_nat (- index)) by lia.
    replace (Z.to_nat (Z.of_nat (length l) + index + 1))
      with (S (length l - Z.to_nat (- index))) by lia.
    reflexivity.
  - intros Hlo. unfold splice1, spliceStart.
    replace (index <? 0)%Z with true by (symmetry; apply Z.ltb_lt; lia).
    rewrite Z.max_r by lia.
    clearbody l. destruct l as [|x l0]; [congruence |].
    replace (Z.min (Z.max 1 0) (Z.of_nat (length (x :: l0)) - 0))
      with 1%Z by (cbn [length]; lia).
    reflexivity.
Qed.

Lemma removeExercise_below_length_example :
  atType (workouts mondayShuffled) Push <> [] /\
  S (length (atType (workouts (after (removeExercise samplePage Push (-5)
                                        mondayShuffled))) Push))
  = length (atType (workouts mondayShuffled) Push) /\
  atType (workouts (after (removeExercise samplePage Push (-5) mondayShuffled)))
         Push
  = skipn 1 (atType (workouts mondayShuffled) Push).
Proof.
  assert (Hne : atType (workouts mondayShuffled) Push <> [])
    by (vm_compute; discriminate).
  assert (Hi : (-5 < Z.of_nat (length (atType (workouts mondayShuffled)
                                         Push)))%Z)
    by (vm_compute; reflexivity).
  destruct (proj2 (removeExercise_below_length samplePage Push (-5)
                     mondayShuffled) Hne Hi) as (Hlen & _ & _ & Hfirst).
  split; [exact Hne |]. split; [exact Hlen |].
  apply Hfirst. vm_compute. reflexivity.
Defined.

(* ================================================================== *)
(** * What the stored document holds *)
(* ================================================================== *)

(** The document a successful [addExercise] and every [removeExercise]
    write: the new catalog with the schedule of before the re-sync. *)
Lemma addExercise_stored (dom : page) (t : workoutType) (p : planner) :
  addExercise dom t p = Returned p \/
  exists q,
    localStorage (after (addExercise dom t p)) = localStorage (saveData q) /\
    workouts q = workouts (after (addExercise dom t p)) /\
    schedule q = schedule p /\ progress q = progress p /\
    progress (after (addExercise dom t p)) = progress p.
Proof.
  unfold addExercise.
  destruct (truthy_str _ && negb _); [right | left; reflexivity].
  destruct (renderWorkouts dom _); cbn [after].
  - match goal with |- context [updateSchedule ?x] => set (P := x) end.
    rewrite (proj1 (updateSchedule_frame _)).
    rewrite (proj1 (proj2 (updateSchedule_frame _))).
    destruct (updateSchedule_frame P) as (_ & _ & _ & _ & _ & _ & _ & ->).
    eexists. split; [reflexivity |]. repeat split.
  - eexists. split; [reflexivity |]. repeat split.
Qed.

Lemma removeExercise_stored (dom : page) (t : workoutType) (index : Z)
    (p : planner) :
  exists q,
    localStorage (after (removeExercise dom t index p))
    = localStorage (saveData q) /\
    workouts q = workouts (after (removeExercise dom t index p)) /\
    schedule q = schedule p /\ progress q = progress p /\
    progress (after (removeExercise dom t index p)) = progress p.
Proof.
  unfold removeExercise.
  destruct (renderWorkouts dom _); cbn [after].
  - match goal with |- context [updateSchedule ?x] => set (P := x) end.
    rewrite (proj1 (updateSchedule_frame _)).
    rewrite (proj1 (proj2 (updateSchedule_frame _))).
    destruct (updateSchedule_frame P) as (_ & _ & _ & _ & _ & _ & _ & ->).
    eexists. split; [reflexivity |]. repeat split.
  - eexists. split; [reflexivity |]. repeat split.
Qed.

(** X8: [addExercise] and [removeExercise] save before they render and
    re-sync: whether or not they throw, after loading the page again the
    catalog is the new one, and the schedule is the one of before the
    change. *)
Theorem reload_after_catalog_change (dom : page) (t : workoutType)
    (p : planner) :
  (forall s,
     trim s <> [] -> ~ In (trim s) (atType (workouts p) t) ->
     workouts (reload (after (add dom t s p)))
     = workouts (after (add dom t s p)) /\
     schedule (reload (after (add dom t s p))) = schedule p) /\
  (forall index,
     workouts (reload (after (removeExercise dom t index p)))
     = workouts (after (removeExercise dom t index p)) /\
     schedule (reload (after (removeExercise dom t index p))) = schedule p).
Proof.
  split.
  - intros s Hne Hni. unfold add.
    destruct (addExercise_stored dom t (typeExercise t s p))
      as [He | (q & Hls & Hw & Hs & _)].
    + exfalso.
      destruct (addExercise_cases dom t (typeExercise t s p))
        as [[Hno _] | [_ Hw]].
      * cbn [typeExercise exerciseInput workouts withInput] in Hno.
        rewrite atType_setType_eq in Hno. tauto.
      * rewrite He in Hw. cbn [after] in Hw.
        apply (f_equal (fun w => length (atType w t))) in Hw.
        rewrite atType_setType_eq, length_app in Hw. simpl in Hw. lia.
    + destruct (reload_saved _ q Hls) as (Hw' & Hs' & _).
      change (schedule (typeExercise t s p)) with (schedule p) in Hs.
      split; congruence.
  - intros index.
    destruct (removeExercise_stored dom t index p) as (q & Hls & Hw & Hs & _).
    destruct (reload_saved _ q Hls) as (Hw' & Hs' & _).
    split; congruence.
Qed.

Lemma reload_after_catalog_change_example :
  workouts (reload (after (add samplePage Push (u "Dips") firstVisit)))
  = workouts (after (add samplePage Push (u "Dips") firstVisit)) /\
  schedule (reload (after (add samplePage Push (u "Dips") firstVisit)))
  = schedule firstVisit.
Proof.
  refine (proj1 (reload_after_catalog_change samplePage Push firstVisit)
            (u "Dips") _ _).
  - discriminate.
  - simpl. intuition discriminate.
Defined.

(** After adding [Dips] on the first visit Monday lists six exercises;
    loaded again, the page has no exercise on Monday. *)
Lemma reload_loses_schedule :
  length (atDay (schedule dipsAdded) Monday) = 6 /\
  atDay (schedule (reload dipsAdded)) Monday = [].
Proof. split; vm_compute; reflexivity. Qed.

Lemma handle_stored (dom : page) (a : action) (p : planner) :
  storedCatalogAndProgress p -> storedCatalogAndProgress (handle dom a p).
Proof.
  intros H.
  destruct a as [t s | t | t i | d r | d | i | i k r | now |];
    unfold handle; cbn [run after].
  - exact H.
  - destruct (addExercise_stored dom t p)
      as [-> | (q & Hls & Hw & _ & Hg & Hg')]; [exact H |].
    exists q. repeat split; congruence.
  - destruct (removeExercise_stored dom t i p)
      as (q & Hls & Hw & _ & Hg & Hg').
    exists q. repeat split; congruence.
  - exists (randomizeDay d r p). repeat split.
  - destruct (startWorkout_frame dom d p) as (Hw & _ & Hg & _ & Hl).
    destruct H as (q & Hls & Hqw & Hqg).
    exists q. repeat split; congruence.
  - unfold addSet. destruct (nth_error (modalSets p) i); exact H.
  - unfold fillSet. destruct (nth_error (modalSets p) i); exact H.
  - destruct (completeWorkout now p) as [[p' msg]|] eqn:Hc; [| exact H].
    destruct (completeWorkout_cases _ _ _ _ Hc)
      as (d & logs & _ & _ & [(_ & -> & _) | (_ & _ & ->)]); [exact H |].
    eexists. repeat split.
  - exact H.
Qed.

Lemma reachable_stored (dom : page) (p : planner) :
  reachable dom p -> storedCatalogAndProgress p.
Proof.
  induction 1 as [| a p _ IH | p _ IH].
  - exists (withWorkouts defaultWorkouts (fields None)). repeat split.
  - apply handle_stored, IH.
  - destruct IH as (q & Hls & Hw & Hg).
    destruct (reload_saved p q Hls) as (Hw' & _ & Hg' & Hls').
    exists q. repeat split; congruence.
Qed.

Lemma reachable_reload (dom : page) (p : planner) :
  reachable dom p ->
  workouts (reload p) = workouts p /\ progress (reload p) = progress p /\
  localStorage (reload p) = localStorage p.
Proof.
  intros H. destruct (reachable_stored dom p H) as (q & Hls & Hw & Hg).
  destruct (reload_saved p q Hls) as (Hw' & _ & Hg' & Hls').
  repeat split; congruence.
Qed.

Lemma dipsAdded_reachable : reachable samplePage dipsAdded.
Proof.
  unfold dipsAdded. do 2 apply reach_handle. apply reach_first.
Qed.

(** X9: in every state reached from the first visit, by whatever the user
    does and however often the page is loaded again, the stored document
    holds the catalog and the progress log of the object: loading the
    page again loses no exercise and no logged workout. *)
Theorem reload_keeps_catalog_and_progress (dom : page) (p : planner) :
  reachable dom p ->
  workouts (reload p) = workouts p /\
  progress (reload p) = progress p /\
  localStorage (reload p) = localStorage p.
Proof.
  intros H. destruct (reachable_stored dom p H) as (q & Hls & Hw & Hg).
  destruct (reload_saved p q Hls) as (Hw' & _ & Hg' & Hls').
  repeat split; congruence.
Qed.

Lemma reload_keeps_catalog_and_progress_example :
  workouts (reload dipsAdded) = workouts dipsAdded /\
  progress (reload dipsAdded) = progress dipsAdded /\
  localStorage (reload dipsAdded) = localStorage dipsAdded.
Proof.
  exact (reload_keeps_catalog_and_progress samplePage dipsAdded
           dipsAdded_reachable).
Defined.

(** X10: no list of the catalog and no day of the schedule names an exercise
    twice, in every state reached from the first visit. *)
Theorem reachable_no_repeated_name (dom : page) (p : planner) :
  reachable dom p ->
  (forall t, NoDup (atType (workouts p) t)) /\
  (forall d, NoDup (atDay (schedule p) d)).
Proof.
  intros H. destruct (reachable_duplicateFree dom p H) as [Hw Hs].
  split; [exact Hw | exact Hs].
Qed.

Lemma reachable_no_repeated_name_example :
  (forall t, NoDup (atType (workouts dipsAdded) t)) /\
  (forall d, NoDup (atDay (schedule dipsAdded) d)).
Proof.
  exact (reachable_no_repeated_name samplePage dipsAdded dipsAdded_reachable).
Defined.

(* ================================================================== *)
(** * Invariants of the reachable states *)
(* ================================================================== *)

Lemma addExercise_progress (dom : page) (t : workoutType) (p : planner) :
  progress (after (addExercise dom t p)) = progress p.
Proof.
  destruct (addExercise_stored dom t p) as [-> | (q & _ & _ & _ & _ & H)];
    [reflexivity | exact H].
Qed.

Lemma removeExercise_progress (dom : page) (t : workoutType) (index : Z)
    (p : planner) :
  progress (after (removeExercise dom t index p)) = progress p.
Proof.
  destruct (removeExercise_stored dom t index p) as (q & _ & _ & _ & _ & H).
  exact H.
Qed.

(** No handler takes a record out of the progress log or rewrites one;
    only a completed workout adds one, at the end. *)
Lemma handle_progress (dom : page) (a : action) (p : planner) :
  progress (handle dom a p) = progress p \/
  exists now r,
    a = ClickComplete now /\ progress (handle dom a p) = progress p ++ [r] /\
    wellLogged r /\ date r = now.
Proof.
  destruct a as [t s | t | t i | d r | d | i | i k r | now |];
    unfold handle; cbn [run after].
  - left. reflexivity.
  - left. apply addExercise_progress.
  - left. apply removeExercise_progress.
  - left. reflexivity.
  - left. apply (startWorkout_frame dom d p).
  - left. unfold addSet. destruct (nth_error (modalSets p) i); reflexivity.
  - left. unfold fillSet. destruct (nth_error (modalSets p) i); reflexivity.
  - destruct (completeWorkout now p) as [[p' msg]|] eqn:Hc;
      [| left; reflexivity].
    destruct (completeWorkout_cases _ _ _ _ Hc)
      as (d & logs & _ & Hr & [(_ & -> & _) | (Hne & _ & ->)]);
      [left; reflexivity |].
    right. eexists. eexists. split; [reflexivity |].
    split; [reflexivity |]. split; [| reflexivity].
    split; [exact Hne | apply (readExercises_logged _ _ _ _ Hr)].
  - left. reflexivity.
Qed.

Lemma workoutLogged_reachable : reachable samplePage workoutLogged.
Proof.
  unfold workoutLogged. do 4 apply reach_handle. apply dipsAdded_reachable.
Qed.

(** X11: the progress log only grows, by one well-formed record at a time: a
    handler leaves it as it is or puts one record at its end, with at
    least one exercise log, each with a set, and all reps above zero; and
    in every state reached from the first visit, page loads included,
    every record of the log is of that kind. *)
Theorem progress_append_only :
  (forall dom a p,
     progress (handle dom a p) = progress p \/
     exists r,
       progress (handle dom a p) = progress p ++ [r] /\ wellLogged r) /\
  (forall dom p, reachable dom p -> Forall wellLogged (progress p)).
Proof.
  split.
  - intros dom a p.
    destruct (handle_progress dom a p) as [H | (now & r & _ & H & Hr & _)];
      [left; exact H | right; exists r; auto].
  - intros dom p H. induction H as [| a p H IH | p H IH].
    + constructor.
    + destruct (handle_progress dom a p)
        as [-> | (now & r & _ & -> & Hr & _)]; [exact IH |].
      apply Forall_app. split; [exact IH | constructor; [exact Hr | constructor]].
    + rewrite (proj1 (proj2 (reachable_reload dom p H))). exact IH.
Qed.

Lemma progress_append_only_example : Forall wellLogged (progress workoutLogged).
Proof.
  exact (proj2 progress_append_only samplePage workoutLogged
           workoutLogged_reachable).
Defined.

(** The sample workout did reach the log. *)
Lemma workoutLogged_progress :
  progress workoutLogged
  = [{| day := Monday; date := someDay;
        exercises :=
          [{| name := u "Bench Press";
              sets := [{| weight := 100%Q; reps := 10%Q |}] |}] |}].
Proof. vm_compute. reflexivity. Qed.

Lemma trim_idempotent (s : str) : trim (trim s) = trim s.
Proof.
  destruct (trim_spec s) as (a & b & _ & _ & _ & H).
  destruct (trim s) as [|c m] eqn:E; [reflexivity |].
  destruct H as (Hc & m' & z & Hm & Hz).
  unfold trim. cbn [trimStart]. rewrite Hc.
  unfold trimEnd. rewrite Hm, rev_app_distr. cbn [rev app trimStart].
  rewrite Hz. cbn [rev]. rewrite rev_involutive. reflexivity.
Qed.

Lemma Forall_firstn_skipn {A} (P : A -> Prop) (n m : nat) (l : list A) :
  Forall P l -> Forall P (firstn n l ++ skipn m l).
Proof.
  intros H. apply Forall_app. split.
  - revert n. induction H as [|x l Hx _ IH]; intros [|n]; simpl;
      constructor; auto.
  - revert m. induction H as [|x l Hx Hl IH]; intros [|m]; simpl;
      try constructor; auto.
Qed.

Lemma Forall_setType (P : str -> Prop) (t : workoutType) (l : list str)
    (w : byType (list str)) :
  (forall t', Forall P (atType w t')) -> Forall P l ->
  forall t', Forall P (atType (setType t l w) t').
Proof.
  intros Hw Hl t'. destruct t, t'; simpl; auto;
    first [apply (Hw Push) | apply (Hw Pull) | apply (Hw Legs)].
Qed.

Lemma handle_trimmed (dom : page) (a : action) (p : planner) :
  (forall t, Forall trimmed (atType (workouts p) t)) ->
  forall t, Forall trimmed (atType (workouts (handle dom a p)) t).
Proof.
  intros H.
  destruct a as [t s | t | t i | d r | d | i | i k r | now |];
    unfold handle; cbn [run after].
  - exact H.
  - destruct (addExercise_cases dom t p) as [[_ ->] | [[Hne _] ->]];
      [exact H |].
    apply Forall_setType; [exact H |].
    apply Forall_app. split; [apply H |].
    constructor; [| constructor].
    split; [exact Hne | apply trim_idempotent].
  - rewrite removeExercise_workouts.
    apply Forall_setType; [exact H |].
    apply Forall_firstn_skipn, H.
  - exact H.
  - rewrite (proj1 (startWorkout_frame dom d p)). exact H.
  - unfold addSet. destruct (nth_error (modalSets p) i); exact H.
  - unfold fillSet. destruct (nth_error (modalSets p) i); exact H.
  - destruct (completeWorkout now p) as [[p' msg]|] eqn:Hc; [| exact H].
    destruct (completeWorkout_cases _ _ _ _ Hc)
      as (d & logs & _ & _ & [(_ & -> & _) | (_ & _ & ->)]); exact H.
  - exact H.
Qed.

Lemma defaultWorkouts_trimmed (t : workoutType) :
  Forall trimmed (atType defaultWorkouts t).
Proof.
  destruct t; cbn; repeat constructor; try discriminate.
Qed.

(** X12: in every state reached from the first visit each name of the catalog
    is non-empty and has no white space at its ends. *)
Theorem catalog_names_trimmed (dom : page) (p : planner) :
  reachable dom p -> forall t, Forall trimmed (atType (workouts p) t).
Proof.
  induction 1 as [| a p _ IH | p H IH].
  - apply defaultWorkouts_trimmed.
  - apply handle_trimmed, IH.
  - rewrite (proj1 (reachable_reload dom p H)). exact IH.
Qed.

Lemma catalog_names_trimmed_example :
  Forall trimmed (atType (workouts dipsAdded) Push).
Proof.
  exact (catalog_names_trimmed samplePage dipsAdded dipsAdded_reachable Push).
Defined.

Lemma quietVisit_reachable (dom : page) (p : planner) :
  quietVisit dom p -> reachable dom p.
Proof.
  induction 1 as [| a p _ IH _]; [apply reach_first | apply reach_handle, IH].
Qed.

(** A handler that returns leaves each day empty or in step with the
    catalog, if it was. *)
Lemma handle_inStep (dom : page) (a : action) (p : planner) (d : weekday) :
  duplicateFree p ->
  threw (run dom a p) = false ->
  atDay (schedule p) d = [] \/
  Permutation (atDay (schedule p) d) (atType (workouts p) (getDayType d)) ->
  atDay (schedule (handle dom a p)) d = [] \/
  Permutation (atDay (schedule (handle dom a p)) d)
              (atType (workouts (handle dom a p)) (getDayType d)).
Proof.
  intros Hdf Hq H.
  pose proof (handle_duplicateFree dom a p Hdf) as Hdf'.
  destruct a as [t s | t | t i | d0 r | d0 | i | i k r | now |];
    unfold handle in *; cbn [run after] in *.
  - exact H.
  - unfold addExercise in *.
    destruct (truthy_str _ && negb _); [| exact H].
    destruct (renderWorkouts dom _); cbn [after threw] in *;
      [| discriminate Hq].
    right. rewrite (proj1 (updateSchedule_frame _)).
    match goal with |- context [updateSchedule ?x] => set (P := x) in * end.
    apply updateSchedule_reconciles.
    destruct Hdf' as [Hw Hs]. split; [| apply Hdf].
    intros t'. specialize (Hw t').
    rewrite (proj1 (updateSchedule_frame P)) in Hw. exact Hw.
  - unfold removeExercise in *.
    destruct (renderWorkouts dom _); cbn [after threw] in *;
      [| discriminate Hq].
    right. rewrite (proj1 (updateSchedule_frame _)).
    match goal with |- context [updateSchedule ?x] => set (P := x) in * end.
    apply updateSchedule_reconciles.
    destruct Hdf' as [Hw Hs]. split; [| apply Hdf].
    intros t'. specialize (Hw t').
    rewrite (proj1 (updateSchedule_frame P)) in Hw. exact Hw.
  - change (workouts (randomizeDay d0 r p)) with (workouts p).
    destruct (weekday_eq_dec d0 d) as [-> | Hne].
    + right. rewrite randomizeDay_schedule. symmetry.
      apply shuffleFrom_Permutation.
    + unfold randomizeDay. cbn [schedule saveData withStorage withSchedule].
      rewrite atDay_setDay_ne by exact Hne. exact H.
  - destruct (startWorkout_frame dom d0 p) as (Hw & Hs & _).
    rewrite Hw, Hs. exact H.
  - unfold addSet. destruct (nth_error (modalSets p) i); exact H.
  - unfold fillSet. destruct (nth_error (modalSets p) i); exact H.
  - destruct (completeWorkout now p) as [[p' msg]|] eqn:Hc; [| exact H].
    destruct (completeWorkout_cases _ _ _ _ Hc)
      as (d1 & logs & _ & _ & [(_ & -> & _) | (_ & _ & ->)]); exact H.
  - exact H.
Qed.

Lemma dipsAdded_quietVisit : quietVisit samplePage dipsAdded.
Proof.
  unfold dipsAdded.
  apply quiet_handle; [apply quiet_handle; [apply quiet_first |] |];
    vm_compute; reflexivity.
Qed.

(** X13: within one visit of the page in which no handler throws, from
    the first visit on, each day of the schedule is empty or a
    permutation of the catalog list of its category: a workout that
    starts lists exactly the exercises of the catalog. *)
Theorem visit_days_in_step (dom : page) (p : planner) :
  quietVisit dom p ->
  forall d,
    atDay (schedule p) d = [] \/
    Permutation (atDay (schedule p) d) (atType (workouts p) (getDayType d)).
Proof.
  induction 1 as [| a p H IH Hq]; intros d.
  - left. destruct d; reflexivity.
  - apply handle_inStep; [| exact Hq | apply IH].
    apply (reachable_duplicateFree dom), quietVisit_reachable, H.
Qed.

Lemma visit_days_in_step_example :
  atDay (schedule dipsAdded) Monday = [] \/
  Permutation (atDay (schedule dipsAdded) Monday)
              (atType (workouts dipsAdded) (getDayType Monday)).
Proof.
  exact (visit_days_in_step samplePage dipsAdded dipsAdded_quietVisit Monday).
Defined.

(** After a handler that throws the days can be out of step: with
    [<!--] added to the push list the catalog lists six names and Monday
    the five of the randomize click before. *)
Lemma visit_out_of_step :
  let p := handle samplePage (ClickAdd Push)
             (handle samplePage (TypeExercise Push (u "<!--"))
                (handle samplePage (ClickRandomize Monday keepOrder) firstVisit)) in
  threw (run samplePage (ClickAdd Push)
           (handle samplePage (TypeExercise Push (u "<!--"))
              (handle samplePage (ClickRandomize Monday keepOrder) firstVisit)))
  = true /\
  length (atType (workouts p) Push) = 6 /\
  length (atDay (schedule p) Monday) = 5.
Proof. vm_compute. repeat split. Qed.

(* ================================================================== *)
(** * More on the workout session *)
(* ================================================================== *)













(* ================================================================== *)
(** * More on loading *)
(* ================================================================== *)

Lemma getProp_not_null (data : json) (k : str) :
  data <> JNull -> exists x, getProp data k = Some x.
Proof.
  intros H. destruct data; simpl; try (eexists; reflexivity). congruence.
Qed.

Lemma orDefault_absent {A} (read : json -> option A) (dflt : A)
    (x : option json) :
  (forall v, x = Some v -> truthy v = false) ->
  orDefault read dflt x = Some dflt.
Proof.
  intros H. destruct x as [v|]; simpl; [| reflexivity].
  rewrite (H v eq_refl). reflexivity.
Qed.

(** X17: a stored document that parses to anything but [null] and has none of
    the three members, or has them with falsy values, loads as the empty
    catalog, the empty schedule and the empty progress log: no error is
    logged, the seed catalog is not installed and nothing is saved. *)
Theorem loadData_without_members (data : json) :
  data <> JNull ->
  (forall k v,
     In k [u "workouts"; u "schedule"; u "progress"] ->
     getProp data k = Some (Some v) -> truthy v = false) ->
  construct (Some (JsonText data))
  = Loaded (fields (Some (JsonText data))) false.
Proof.
  intros Hnn Hfalsy.
  assert (Hk : forall k A (read : json -> option A) (dflt : A),
             In k [u "workouts"; u "schedule"; u "progress"] ->
             exists x, getProp data k = Some x /\
                       orDefault read dflt x = Some dflt).
  { intros k A read dflt Hin.
    destruct (getProp_not_null data k Hnn) as [x Hx].
    exists x. split; [exact Hx |].
    apply orDefault_absent. intros v ->. apply (Hfalsy k v Hin Hx). }
  unfold construct, loadData. cbn [localStorage fields].
  destruct (Hk (u "workouts") _ workoutsOfJson emptyWorkouts)
    as (x1 & -> & ->); [simpl; auto |].
  destruct (Hk (u "schedule") _ scheduleOfJson emptySchedule)
    as (x2 & -> & ->); [simpl; auto |].
  destruct (Hk (u "progress") _ progressOfJson (@nil workoutRecord))
    as (x3 & -> & ->); [simpl; auto |].
  reflexivity.
Qed.

Lemma loadData_without_members_example :
  construct (Some (JsonText (JObject [])))
  = Loaded (fields (Some (JsonText (JObject [])))) false.
Proof.
  apply (loadData_without_members (JObject [])).
  - discriminate.
  - intros k v _ H. discriminate H.
Defined.

(** X18: [loadData] writes the storage only when the item is missing or
    empty: a stored document, corrupt or not, is still there, as it was,
    after the object is constructed. *)
Theorem loadData_keeps_document (ls : option item) (p : planner)
    (err : bool) :
  ls <> None -> ls <> Some EmptyText ->
  construct ls = Loaded p err -> localStorage p = ls.
Proof.
  intros Hn He. unfold construct, loadData. cbn [localStorage fields].
  destruct ls as [[| raw | data]|]; try congruence.
  - intros H. injection H as <- _. reflexivity.
  - destruct (getProp data (u "workouts")) as [w|];
      [| intros H; injection H as <- _; reflexivity].
    destruct (orDefault workoutsOfJson emptyWorkouts w) as [w'|];
      [| discriminate].
    destruct (getProp data (u "schedule")) as [s|];
      [| intros H; injection H as <- _; reflexivity].
    destruct (orDefault scheduleOfJson emptySchedule s) as [s'|];
      [| discriminate].
    destruct (getProp data (u "progress")) as [g|];
      [| intros H; injection H as <- _; reflexivity].
    destruct (orDefault progressOfJson [] g) as [g'|]; [| discriminate].
    intros H; injection H as <- _. reflexivity.
Qed.

Lemma loadData_keeps_document_example :
  localStorage (fields (Some (BadText (u "{oops"))))
  = Some (BadText (u "{oops")).
Proof.
  apply (loadData_keeps_document (Some (BadText (u "{oops")))
           (fields (Some (BadText (u "{oops")))) true).
  - discriminate.
  - discriminate.
  - reflexivity.
Defined.

(* ================================================================== *)
(** * The order of the displayed progress *)
(* ================================================================== *)

Lemma insertSorted_Permutation {A} (compare : A -> A -> option Z) (x : A)
    (l : list A) :
  Permutation (insertSorted compare x l) (x :: l).
Proof.
  induction l as [|y l IH]; simpl.
  - reflexivity.
  - destruct (aboveZero (compare x y)); [| reflexivity].
    rewrite IH. apply perm_swap.
Qed.

Lemma sortWith_Permutation {A} (compare : A -> A -> option Z) (l : list A) :
  Permutation (sortWith compare l) l.
Proof.
  induction l as [|x l IH]; simpl.
  - reflexivity.
  - rewrite insertSorted_Permutation. constructor. exact IH.
Qed.

Lemma byDate_dated (timeOf : str -> option Z) (a b : workoutRecord) :
  dated timeOf a -> dated timeOf b ->
  exists ta tb,
    timeOf (date a) = Some ta /\ timeOf (date b) = Some tb /\
    byDate timeOf a b = Some (tb - ta)%Z.
Proof.
  unfold dated, byDate. intros Ha Hb.
  destruct (timeOf (date a)) as [ta|]; [| congruence].
  destruct (timeOf (date b)) as [tb|]; [| congruence].
  exists ta, tb. auto.
Qed.

Lemma notOlder_trans (timeOf : str -> option Z) (a b c : workoutRecord) :
  notOlder timeOf a b -> notOlder timeOf b c -> notOlder timeOf a c.
Proof.
  intros (ta & tb & Ha & Hb & H1) (tb' & tc & Hb' & Hc & H2).
  exists ta, tc. repeat split; auto. rewrite Hb in Hb'. injection Hb' as <-.
  lia.
Qed.

Lemma insertSorted_sorted (timeOf : str -> option Z) (x : workoutRecord)
    (l : list workoutRecord) :
  dated timeOf x -> Forall (dated timeOf) l ->
  StronglySorted (notOlder timeOf) l ->
  StronglySorted (notOlder timeOf) (insertSorted (byDate timeOf) x l).
Proof.
  intros Hx Hl Hs. induction Hs as [| y l Hs IH Hy]; simpl.
  - constructor; constructor.
  - inversion Hl as [| ? ? Hdy Hdl]; subst.
    destruct (byDate_dated timeOf x y Hx Hdy) as (tx & ty & Htx & Hty & Hc).
    rewrite Hc. cbn [aboveZero].
    destruct (0 <? ty - tx)%Z eqn:Hlt.
    + apply Z.ltb_lt in Hlt. constructor; [apply IH; exact Hdl |].
      apply (Permutation_Forall
               (Permutation_sym (insertSorted_Permutation _ x l))).
      constructor; [| exact Hy].
      exists ty, tx. repeat split; auto. lia.
    + apply Z.ltb_ge in Hlt.
      assert (Hxy : notOlder timeOf x y)
        by (exists tx, ty; repeat split; auto; lia).
      constructor; [constructor; assumption |].
      constructor; [exact Hxy |].
      eapply Forall_impl; [| exact Hy].
      intros z Hz. eapply notOlder_trans; eassumption.
Qed.

Lemma insertSorted_stable (timeOf : str -> option Z) (t : Z)
    (x : workoutRecord) (l : list workoutRecord) :
  dated timeOf x -> Forall (dated timeOf) l ->
  filter (datedAt timeOf t) (insertSorted (byDate timeOf) x l)
  = filter (datedAt timeOf t) (x :: l).
Proof.
  intros Hx Hl. induction Hl as [| y l Hdy Hdl IH]; [reflexivity |].
  cbn [insertSorted].
  destruct (byDate_dated timeOf x y Hx Hdy) as (tx & ty & Htx & Hty & Hc).
  rewrite Hc. cbn [aboveZero].
  destruct (0 <? ty - tx)%Z eqn:Hlt; [| reflexivity].
  apply Z.ltb_lt in Hlt.
  cbn [filter] in *. rewrite IH.
  assert (Hax : datedAt timeOf t x = (tx =? t)%Z)
    by (unfold datedAt; rewrite Htx; reflexivity).
  assert (Hay : datedAt timeOf t y = (ty =? t)%Z)
    by (unfold datedAt; rewrite Hty; reflexivity).
  rewrite Hax, Hay.
  destruct (ty =? t)%Z eqn:Ey; destruct (tx =? t)%Z eqn:Ex; try reflexivity.
  apply Z.eqb_eq in Ey, Ex. lia.
Qed.

(** X19: when every date of the progress log can be read, the copy
    [renderProgress] displays holds each record of the log once, runs
    from the latest workout to the earliest, and keeps workouts of the
    same time in the order they were logged in. *)
Theorem sortedProgress_newest_first (timeOf : str -> option Z) (p : planner) :
  Forall (dated timeOf) (progress p) ->
  Permutation (sortedProgress timeOf p) (progress p) /\
  StronglySorted (notOlder timeOf) (sortedProgress timeOf p) /\
  forall t,
    filter (datedAt timeOf t) (sortedProgress timeOf p)
    = filter (datedAt timeOf t) (progress p).
Proof.
  unfold sortedProgress. intros Hd. split; [apply sortWith_Permutation |].
  induction Hd as [| x l Hx Hl [IH1 IH2]]; cbn [sortWith fold_right].
  - split; [constructor | reflexivity].
  - fold (sortWith (byDate timeOf) l).
    assert (Hl' : Forall (dated timeOf) (sortWith (byDate timeOf) l)).
    { apply (Permutation_Forall
               (Permutation_sym (sortWith_Permutation _ l))). exact Hl. }
    split.
    + apply insertSorted_sorted; assumption.
    + intros t. rewrite insertSorted_stable by assumption.
      cbn [filter]. rewrite IH2. reflexivity.
Qed.

Lemma threeWorkouts_dated : Forall (dated lengthTime) (progress threeWorkouts).
Proof. repeat constructor; discriminate. Qed.

Lemma sortedProgress_newest_first_example :
  StronglySorted (notOlder lengthTime) (sortedProgress lengthTime threeWorkouts).
Proof.
  exact (proj1 (proj2 (sortedProgress_newest_first lengthTime threeWorkouts
                         threeWorkouts_dated))).
Defined.

(** The three sample workouts, latest first. *)
Lemma sortedProgress_sample :
  map day (sortedProgress lengthTime threeWorkouts)
  = [Tuesday; Friday; Monday].
Proof. reflexivity. Qed.

(* ================================================================== *)
(** * The schedule across page loads *)
(* ================================================================== *)

(** X20: with nothing stored, or an empty text, the constructor installs the
    seed catalog and leaves the schedule empty ([init] does not call
    [updateSchedule]): every category has exercises, and [startWorkout]
    alerts on every day. *)
Theorem first_visit_schedule_empty (dom : page) (ls : option item)
    (p : planner) (err : bool) (d : weekday) :
  ls = None \/ ls = Some EmptyText ->
  construct ls = Loaded p err ->
  atType (workouts p) (getDayType d) <> [] /\
  atDay (schedule p) d = [] /\
  startWorkout dom d p = (Returned p, Some noExercisesAlert).
Proof.
  intros Hls H. rewrite (loadData_nothing_saved ls Hls) in H.
  injection H as <- _.
  split; [destruct d; discriminate |].
  split; destruct d; reflexivity.
Qed.

Lemma first_visit_schedule_empty_example :
  startWorkout samplePage Monday firstVisit
  = (Returned firstVisit, Some noExercisesAlert).
Proof.
  exact (proj2 (proj2 (first_visit_schedule_empty samplePage None firstVisit
                         false Monday (or_introl eq_refl) eq_refl))).
Defined.

(** X21: [randomizeDay] saves after it assigns the day: loading the page again
    gives back the catalog, the whole schedule with the new order, and
    the progress log. *)
Theorem randomizeDay_stored (d : weekday) (random : nat -> nat -> nat)
    (p : planner) :
  workouts (reload (randomizeDay d random p))
  = workouts (randomizeDay d random p) /\
  schedule (reload (randomizeDay d random p))
  = schedule (randomizeDay d random p) /\
  progress (reload (randomizeDay d random p))
  = progress (randomizeDay d random p).
Proof.
  destruct (reload_saved (randomizeDay d random p) (randomizeDay d random p)
              eq_refl) as (Hw & Hs & Hg & _).
  auto.
Qed.
